(** * The advertisement broadcaster

    A shallow embedding of [internal/advertisement-operator/broadcaster.go]:
    the resource aggregation, the price list, the pod-CIDR heuristic, the
    advertisement record, and the per-peer task [GenerateAdvertisement]
    with its connection retries, its publish loop and its once-guarded
    watcher; then the other helpers of that file ([GetGateway],
    [getPodsTotalRequestsAndLimits]) and [getK8sVersion] of
    [cmd/virtual-kubelet/main.go].

    Go strings are byte sequences and are modelled by [string]; a Go map is
    a [gmap]; a Go slice that is only appended to and ranged over is a
    [list].  A run-time panic (index or slice bound out of range) is an
    explicit result, never a default value. *)

From Stdlib Require Import ZArith Ascii Lia.
From stdpp Require Import base gmap strings list.

#[local] Set Warnings "-clear-no-such-hyp".

(* ===================================================================== *)
(** ** Go's string primitives used by the broadcaster *)
(* ===================================================================== *)

Module GoStrings.

(** [strings.HasPrefix(s, prefix)]. *)
Fixpoint HasPrefix (s prefix : string) : bool :=
  match prefix, s with
  | EmptyString, _ => true
  | String p prefix', String c s' =>
      if Ascii.eqb p c then HasPrefix s' prefix' else false
  | String _ _, EmptyString => false
  end.

(** Drop the first [n] bytes (only meaningful when [n <= length s]). *)
Fixpoint drop_bytes (n : nat) (s : string) : string :=
  match n, s with
  | O, _ => s
  | S n', String _ s' => drop_bytes n' s'
  | S _, EmptyString => EmptyString
  end.

(** The slice expression [s[n:]]: it panics when [n > len(s)]; [None]
    stands for that panic. *)
Definition slice_from (s : string) (n : nat) : option string :=
  if (n <=? String.length s)%nat then Some (drop_bytes n s) else None.

(** [strings.Split(s, sep)] for a separator of one byte, which is how
    the broadcaster calls it ([sep = "."]).  The result always has one
    more element than [s] has separators; splitting the empty string
    gives one empty piece. *)
Fixpoint Split (s : string) (sep : ascii) : list string :=
  match s with
  | EmptyString => [EmptyString]
  | String c s' =>
      if Ascii.eqb c sep then EmptyString :: Split s' sep
      else match Split s' sep with
           | tok :: toks => String c tok :: toks
           | [] => [String c EmptyString]
           end
  end.

(** [strings.Join(toks, sep)], the inverse of [Split]; used in
    statements only. *)
Fixpoint Join (toks : list string) (sep : ascii) : string :=
  match toks with
  | [] => EmptyString
  | [tok] => tok
  | tok :: toks' => tok +:+ String sep (Join toks' sep)
  end.

(** Number of occurrences of a byte ([strings.Count] for one byte). *)
Fixpoint Count (s : string) (sep : ascii) : nat :=
  match s with
  | EmptyString => 0
  | String c s' => (if Ascii.eqb c sep then 1 else 0) + Count s' sep
  end.

End GoStrings.

(* ===================================================================== *)
(** ** Resource quantities ([k8s.io/apimachinery/pkg/api/resource]) *)
(* ===================================================================== *)

Module Resource.

(** [resource.Format]; the zero value of the Go type is the empty
    format. *)
Inductive Format := FormatNone | DecimalExponent | BinarySI | DecimalSI.

(** A [resource.Quantity] is an exact decimal number with a display
    format.  The library never keeps more than nine fractional digits
    (a parsed quantity is rounded up to the nano scale) and switches to
    an arbitrary-precision decimal when 64 bits overflow, so the value
    is an unbounded integer count of nano-units. *)
Record Quantity := mkQuantity { nano : Z; format : Format }.

Definition nano_per_unit : Z := 10 ^ 9.

(** The zero value [resource.Quantity{}]. *)
Definition zero : Quantity := mkQuantity 0 FormatNone.

Definition IsZero (q : Quantity) : bool := (nano q =? 0)%Z.

(** [q.Add(y)]: exact addition; a zero receiver takes the format of
    the argument. *)
Definition Add (q y : Quantity) : Quantity :=
  mkQuantity (nano q + nano y)
             (if IsZero q then format y else format q).

(** [resource.NewQuantity(value, format)]. *)
Definition NewQuantity (value : Z) (f : Format) : Quantity :=
  mkQuantity (value * nano_per_unit) f.

(** [resource.MustParse("2Gi")]: two binary giga-units. *)
Definition MustParse_2Gi : Quantity :=
  mkQuantity (2 * 2 ^ 30 * nano_per_unit) BinarySI.

End Resource.

Export Resource (Quantity, mkQuantity, nano, format).

(* ===================================================================== *)
(** ** The parts of [k8s.io/api/core/v1] the broadcaster reads *)
(* ===================================================================== *)

(** [corev1.ResourceName] constants. *)
Definition ResourceCPU : string := "cpu".
Definition ResourceMemory : string := "memory".
Definition ResourcePods : string := "pods".

(** [corev1.ResourceList] is [map[ResourceName]resource.Quantity]. *)
Abbreviation ResourceList := (gmap string Quantity).

(** [rl.Cpu()], [rl.Memory()], [rl.Pods()]: the entry, or a zero quantity
    when the key is absent. *)
Definition Cpu (rl : ResourceList) : Quantity :=
  match rl !! ResourceCPU with
  | Some val => val
  | None => mkQuantity 0 Resource.DecimalSI
  end.

Definition Memory (rl : ResourceList) : Quantity :=
  match rl !! ResourceMemory with
  | Some val => val
  | None => mkQuantity 0 Resource.BinarySI
  end.

Definition Pods (rl : ResourceList) : Quantity :=
  match rl !! ResourcePods with
  | Some val => val
  | None => Resource.zero
  end.

(** [corev1.ContainerImage]. *)
Record ContainerImage := mkImage { Names : list string; SizeBytes : Z }.

(** [corev1.Node], restricted to the fields that are read:
    [Spec.PodCIDR], [Status.Allocatable], [Status.Images]. *)
Record Node := mkNode {
  Node_Name : string;
  Spec_PodCIDR : string;
  Status_Allocatable : ResourceList;
  Status_Images : list ContainerImage
}.

(** [corev1.ConfigMap]: its name and its data. *)
Record ConfigMap := mkConfigMap {
  cm_Name : string;
  cm_Data : list (string * string)
}.

(* ===================================================================== *)
(** ** Aggregation and prices *)
(* ===================================================================== *)

(** The four local variables of [GetClusterResources]. *)
Record Totals := mkTotals {
  t_cpu : Quantity;
  t_ram : Quantity;
  t_pods : Quantity;
  t_images : list ContainerImage
}.

(** The inner loop: [images = append(images, image)]. *)
Definition append_images (images : list ContainerImage)
    (reported : list ContainerImage) : list ContainerImage :=
  foldl (fun imgs image => imgs ++ [image]) images reported.

(** One iteration of [for _, node := range nodes]. *)
Definition add_node (acc : Totals) (node : Node) : Totals :=
  mkTotals
    (Resource.Add (t_cpu acc) (Cpu (Status_Allocatable node)))
    (Resource.Add (t_ram acc) (Memory (Status_Allocatable node)))
    (Resource.Add (t_pods acc) (Pods (Status_Allocatable node)))
    (append_images (t_images acc) (Status_Images node)).

Definition GetClusterResources (nodes : list Node)
    : ResourceList * list ContainerImage :=
  let acc :=
    foldl add_node (mkTotals Resource.zero Resource.zero Resource.zero []) nodes in
  let availability : ResourceList := ∅ in
  let availability := <[ResourceCPU := t_cpu acc]> availability in
  let availability := <[ResourceMemory := t_ram acc]> availability in
  let availability := <[ResourcePods := t_pods acc]> availability in
  (availability, t_images acc).

(** The price every image name gets. *)
Definition image_price : Quantity := Resource.NewQuantity 5 Resource.DecimalSI.

(** [for _, name := range image.Names { prices[name] = 5 }]. *)
Definition price_names (prices : ResourceList) (names : list string)
    : ResourceList :=
  foldl (fun p name => <[name := image_price]> p) prices names.

Definition ComputePrices (images : list ContainerImage) : ResourceList :=
  let prices : ResourceList := ∅ in
  let prices := <[ResourceCPU := Resource.NewQuantity 1 Resource.DecimalSI]> prices in
  let prices := <[ResourceMemory := Resource.MustParse_2Gi]> prices in
  foldl (fun p image => price_names p (Names image)) prices images.

(* ===================================================================== *)
(** ** The pod-CIDR heuristic *)
(* ===================================================================== *)

(** The block used when the first node's CIDR has no dot. *)
Definition default_PodCIDR : string := "172.17.0.0/16".

(** [GetPodCIDR]: [nodes[0]] panics on an empty slice ([None]). *)
Definition GetPodCIDR (nodes : list Node) : option string :=
  match nodes !! 0%nat with
  | None => None
  | Some node0 =>
      let token := GoStrings.Split (Spec_PodCIDR node0) "."%char in
      Some (if (2 <=? length token)%nat
            then match token with
                 | t0 :: t1 :: _ => t0 +:+ "." +:+ t1 +:+ "." +:+ "0" +:+ "." +:+ "0/16"
                 | _ => default_PodCIDR
                 end
            else default_PodCIDR)
  end.

(* ===================================================================== *)
(** ** The advertisement record ([protocolv1.Advertisement]) *)
(* ===================================================================== *)

(** [time.Time] and [time.Duration] count nanoseconds. *)
Definition Minute : Z := 60 * 10 ^ 9.

Record NetworkInfo := mkNetworkInfo {
  PodCIDR : string;
  GatewayIP : string;
  GatewayPrivateIP : string;
  SupportedProtocols : list string
}.

Record Advertisement := mkAdvertisement {
  adv_Name : string;
  adv_Namespace : string;
  ClusterId : string;
  Images : list ContainerImage;
  Availability : ResourceList;
  LimitRange_Limits : list string;
  Prices : ResourceList;
  Network : NetworkInfo;
  Timestamp : Z;
  TimeToLive : Z
}.

(* ===================================================================== *)
(** ** The world outside the broadcaster *)
(* ===================================================================== *)

(** A client handle returned by [pkg.NewCRDClient]; a variable of the
    interface type [client.Client] is an [option Client], [None] being
    [nil]. *)
Inductive Client := ClientTo (handle : nat).

(** A Go result pair [(value, err)]: either the value with a nil [err], or
    a non-nil [err] with its message. *)
Inductive Answer (A : Type) :=
| Ok (a : A)
| Err (e : string).
Arguments Ok {A} a.
Arguments Err {A} e.

(** What the task does to the outside, in the order it does it. *)
Inductive Event :=
| LogError (err : string) (msg : string)
| LogInfo (msg : string)
| Slept (d : Z)
| Upserted (remote : option Client) (adv : Advertisement) (err : option string)
| WatchStarted (clusterId foreignClusterId : string)
| WgAdd
| WgDone.

(** The answers of the collaborators that are not part of this file: the
    k-th call of each returns what the environment says.  For
    [pkg.CreateOrUpdate], which returns only an [error], [None] is the nil
    error. *)
Record Env := mkEnv {
  env_NewK8sClient : string -> Answer unit;
  env_NewCRDClient : nat -> string -> option ConfigMap -> Answer Client;
  env_ListConfigMaps : Answer (list ConfigMap);
  env_ListNodes : nat -> Answer (list Node);
  env_CreateOrUpdate : nat -> option Client -> Advertisement -> option string;
  env_Now : nat -> Z
}.

(** The state threaded through a run: how often each collaborator has
    been called, and the trace of events so far (oldest first). *)
Record World := mkWorld {
  w_connects : nat;
  w_lists : nat;
  w_publishes : nat;
  w_clock_reads : nat;
  w_trace : list Event
}.

Definition initial_world : World := mkWorld 0 0 0 0 [].

(** A computation either yields a value or panics; the world is kept in
    both cases. *)
Inductive Result (A : Type) :=
| Value (a : A)
| Panic (msg : string).
Arguments Value {A} a.
Arguments Panic {A} msg.

Definition M (A : Type) : Type := World -> Result A * World.

Definition ret {A} (a : A) : M A := fun w => (Value a, w).

Definition bind {A B} (m : M A) (k : A -> M B) : M B :=
  fun w =>
    match m w with
    | (Value a, w') => k a w'
    | (Panic msg, w') => (Panic msg, w')
    end.

Definition panic {A} (msg : string) : M A := fun w => (Panic msg, w).

Declare Scope go_scope.
Delimit Scope go_scope with go.
Notation "x <- m ;; k" := (bind m (fun x => k))
  (at level 100, m at next level, right associativity) : go_scope.
Notation "m ;;; k" := (bind m (fun _ => k))
  (at level 100, right associativity) : go_scope.
Local Open Scope go_scope.

(** The world after one more event. *)
Definition add_event (e : Event) (w : World) : World :=
  mkWorld (w_connects w) (w_lists w) (w_publishes w)
          (w_clock_reads w) (w_trace w ++ [e]).

Definition emit (e : Event) : M unit := fun w => (Value tt, add_event e w).

Definition log_Error (err msg : string) : M unit := emit (LogError err msg).
Definition log_Info (msg : string) : M unit := emit (LogInfo msg).
Definition time_Sleep (d : Z) : M unit := emit (Slept d).

(** [time.Now()]. *)
Definition time_Now (env : Env) : M Z :=
  fun w => (Value (env_Now env (w_clock_reads w)),
            mkWorld (w_connects w) (w_lists w) (w_publishes w)
                    (S (w_clock_reads w)) (w_trace w)).

(** [pkg.NewCRDClient(path, cm)]. *)
Definition pkg_NewCRDClient (env : Env) (path : string) (cm : option ConfigMap)
    : M (Answer Client) :=
  fun w => (Value (env_NewCRDClient env (w_connects w) path cm),
            mkWorld (S (w_connects w)) (w_lists w) (w_publishes w)
                    (w_clock_reads w) (w_trace w)).

(** [localClient.CoreV1().Nodes().List(...)]. *)
Definition list_Nodes (env : Env) : M (Answer (list Node)) :=
  fun w => (Value (env_ListNodes env (w_lists w)),
            mkWorld (w_connects w) (S (w_lists w)) (w_publishes w)
                    (w_clock_reads w) (w_trace w)).

(** [pkg.CreateOrUpdate(remoteClient, ctx, log, adv)]; the call and its
    outcome are recorded. *)
Definition pkg_CreateOrUpdate (env : Env) (remote : option Client)
    (adv : Advertisement) : M (option string) :=
  fun w =>
    let err := env_CreateOrUpdate env (w_publishes w) remote adv in
    (Value err,
     mkWorld (w_connects w) (w_lists w) (S (w_publishes w))
             (w_clock_reads w) (w_trace w ++ [Upserted remote adv err])).

(* ===================================================================== *)
(** ** [CreateAdvertisement] *)
(* ===================================================================== *)

(** The fields of the composite literal are evaluated in source order:
    [GetPodCIDR(nodes)] first, then the two calls of [time.Now()]. *)
Definition CreateAdvertisement (env : Env) (nodes : list Node)
    (clusterId gatewayIP gatewayPrivateIp : string) : M Advertisement :=
  let '(availability, images) := GetClusterResources nodes in
  let prices := ComputePrices images in
  podCIDR <- match GetPodCIDR nodes with
             | Some c => ret c
             | None => panic "index out of range [0] with length 0"
             end ;;
  timestamp <- time_Now env ;;
  now2 <- time_Now env ;;
  ret (mkAdvertisement
         ("advertisement-" +:+ clusterId) "default"
         clusterId images availability [] prices
         (mkNetworkInfo podCIDR gatewayIP gatewayPrivateIp [])
         timestamp
         (now2 + 30 * Minute)%Z).

(* ===================================================================== *)
(** ** The per-peer task [GenerateAdvertisement] *)
(* ===================================================================== *)

(** How a task stands when it is observed: it has returned, or it is
    still in its endless loop (the budget of observed cycles is used up). *)
Inductive Outcome := Returned | Running.

(** [if cm != nil { foreignClusterId = cm.Name[len("foreign-kubeconfig-"):] }]:
    the value of [foreignClusterId], or [None] when the slice expression
    is out of range. *)
Definition cluster_id_suffix (cm : option ConfigMap) : option string :=
  match cm with
  | Some c => GoStrings.slice_from (cm_Name c) (String.length "foreign-kubeconfig-")
  | None => Some EmptyString
  end.

Definition foreign_cluster_id (cm : option ConfigMap) : M string :=
  match cluster_id_suffix cm with
  | Some id => ret id
  | None => panic "slice bounds out of range"
  end.

(** The local variables the connection loop leaves behind. *)
Record Connect := mkConnect {
  c_retry : nat;
  c_remoteClient : option Client;
  c_err : string
}.

(** [for retry = 0; retry < 3; retry++ { ... }], entered with
    [remaining = 3 - retry] iterations still allowed by the condition. *)
Fixpoint connect_loop (env : Env) (foreignKubeconfigPath : string)
    (cm : option ConfigMap) (foreignClusterId : string)
    (remaining : nat) (st : Connect) : M Connect :=
  match remaining with
  | O => ret st
  | S remaining' =>
      r <- pkg_NewCRDClient env foreignKubeconfigPath cm ;;
      match r with
      | Err e =>
          log_Error e ("Unable to create client to remote cluster "
                       +:+ foreignClusterId +:+ ". Retry in 1 minute") ;;;
          time_Sleep (1 * Minute) ;;;
          connect_loop env foreignKubeconfigPath cm foreignClusterId remaining'
                       (mkConnect (S (c_retry st)) None e)
      | Ok c => ret (mkConnect (c_retry st) (Some c) EmptyString)
      end
  end.

(** [go once.Do(f)]: [f] runs if the [sync.Once] has not fired yet; the
    result is the new state of the guard. *)
Definition once_Do (once : bool) (f : M unit) : M bool :=
  if once then ret true else (f ;;; ret true).

(** The endless [for { ... }], observed for [cycles] iterations. *)
Fixpoint publish_loop (env : Env) (cm : option ConfigMap)
    (clusterId gatewayIP gatewayPrivateIP foreignClusterId : string)
    (remoteClient : option Client) (cycles : nat) (once : bool) : M Outcome :=
  match cycles with
  | O => ret Running
  | S cycles' =>
      r <- list_Nodes env ;;
      match r with
      | Err e => log_Error e "Unable to list nodes" ;;; ret Returned
      | Ok nodes =>
          adv <- CreateAdvertisement env nodes clusterId gatewayIP gatewayPrivateIP ;;
          err <- pkg_CreateOrUpdate env remoteClient adv ;;
          once' <- match err with
                   | Some e =>
                       log_Error e ("Unable to create advertisement on remote cluster "
                                    +:+ foreignClusterId) ;;;
                       ret once
                   | None =>
                       log_Info ("correctly created advertisement on remote cluster "
                                 +:+ foreignClusterId) ;;;
                       once_Do once (emit (WatchStarted clusterId foreignClusterId))
                   end ;;
          time_Sleep (10 * Minute) ;;;
          publish_loop env cm clusterId gatewayIP gatewayPrivateIP foreignClusterId
                       remoteClient cycles' once'
      end
  end.

(** [defer wg.Done()]: runs when the function returns or panics. *)
Definition defer_Done (body : M Outcome) : M Outcome :=
  fun w =>
    match body w with
    | (Value Running, w') => (Value Running, w')
    | (r, w') => (r, add_event WgDone w')
    end.

Definition GenerateAdvertisement (env : Env) (cycles : nat)
    (foreignKubeconfigPath : string) (cm : option ConfigMap)
    (clusterId gatewayIP gatewayPrivateIP : string) : M Outcome :=
  defer_Done (
    foreignClusterId <- foreign_cluster_id cm ;;
    st <- connect_loop env foreignKubeconfigPath cm foreignClusterId 3
                       (mkConnect 0 None EmptyString) ;;
    if (c_retry st =? 3)%nat then
      log_Error (c_err st) ("Failed to create client to remote cluster "
                            +:+ foreignClusterId) ;;;
      ret Returned
    else
      log_Info ("created client to remote cluster " +:+ foreignClusterId) ;;;
      publish_loop env cm clusterId gatewayIP gatewayPrivateIP foreignClusterId
                   (c_remoteClient st) cycles false).

(* ===================================================================== *)
(** ** [StartBroadcaster] *)
(* ===================================================================== *)

(** The records [StartBroadcaster] starts a task for. *)
Definition selected (items : list ConfigMap) : list ConfigMap :=
  filter (fun cm => GoStrings.HasPrefix (cm_Name cm) "foreign-kubeconfig" = true) items.

(** [for _, cm := range configMaps.Items { ... go GenerateAdvertisement(...) }]
    followed by [wg.Wait()].  The goroutines share nothing but the log and
    the collaborators; they are run here one after the other, each observed
    for [cycles] publish cycles, which is one of their schedules.  A panic
    in any goroutine ends the process.  [wg.Wait()] returns only when every
    task has returned. *)
Fixpoint run_tasks (env : Env) (cycles : nat)
    (clusterId foreignKubeconfig gatewayIP gatewayPrivateIP : string)
    (items : list ConfigMap) (all_returned : Outcome) : M Outcome :=
  match items with
  | [] => ret all_returned
  | cm :: items' =>
      if GoStrings.HasPrefix (cm_Name cm) "foreign-kubeconfig" then
        emit WgAdd ;;;
        o <- GenerateAdvertisement env cycles foreignKubeconfig (Some cm)
                                   clusterId gatewayIP gatewayPrivateIP ;;
        run_tasks env cycles clusterId foreignKubeconfig gatewayIP gatewayPrivateIP
                  items' (match o with Returned => all_returned | Running => Running end)
      else
        run_tasks env cycles clusterId foreignKubeconfig gatewayIP gatewayPrivateIP
                  items' all_returned
  end.

Definition StartBroadcaster (env : Env) (cycles : nat)
    (clusterId localKubeconfig foreignKubeconfig gatewayIP gatewayPrivateIP : string)
    : M Outcome :=
  log_Info "starting broadcaster" ;;;
  match env_NewK8sClient env localKubeconfig with
  | Err e => log_Error e "Unable to create client to local cluster" ;;; ret Returned
  | Ok _ =>
      localCRDClient <- pkg_NewCRDClient env localKubeconfig None ;;
      match localCRDClient with
      | Err e => log_Error e "Unable to create client to local cluster" ;;; ret Returned
      | Ok _ =>
          match env_ListConfigMaps env with
          | Err e => log_Error e "Unable to list configMaps" ;;; ret Returned
          | Ok items =>
              run_tasks env cycles clusterId foreignKubeconfig gatewayIP
                        gatewayPrivateIP items Returned
          end
      end
  end.

(* ===================================================================== *)
(** ** The other helpers of [broadcaster.go] *)
(* ===================================================================== *)

(** [corev1.NodeAddress]. *)
Record NodeAddress := mkNodeAddress { addr_Type : string; Address : string }.

(** A [corev1.Node] together with its [Status.Addresses], the one more
    field [GetGateway] reads. *)
Record AddressedNode := mkAddressedNode {
  an_Node : Node;
  Status_Addresses : list NodeAddress
}.

(** [GetGateway]: [nodes[0].Status.Addresses[0].Address]; either index
    panics when out of range ([None]). *)
Definition GetGateway (nodes : list AddressedNode) : option string :=
  match nodes !! 0%nat with
  | None => None
  | Some node0 =>
      match Status_Addresses node0 !! 0%nat with
      | None => None
      | Some addr0 => Some (Address addr0)
      end
  end.

(** [GetGatewayPrivateIP]. *)
Definition GetGatewayPrivateIP : string := EmptyString.

(** The body of [for name, value := range podValues] in
    [getPodsTotalRequestsAndLimits]: a first value is copied
    ([DeepCopy]), a later one is added to the entry. *)
Definition add_to_total (name : string) (value : Quantity) (totals : ResourceList)
    : ResourceList :=
  match totals !! name with
  | None => <[name := value]> totals
  | Some total => <[name := Resource.Add total value]> totals
  end.

(** One [range] over a pod's map.  Go visits the keys of a map in an
    unspecified order; [map_fold] visits them in some order too, and the
    lemmas below never depend on which. *)
Definition add_pod_values (totals podValues : ResourceList) : ResourceList :=
  map_fold add_to_total totals podValues.

(** [getPodsTotalRequestsAndLimits(podList)].  The helper
    [resourcehelper.PodRequestsAndLimits] of kubectl is not part of this
    repository: it is the parameter [PodRequestsAndLimits].  A nil
    [podList] panics on [podList.Items] ([None] as argument and as
    result). *)
Definition getPodsTotalRequestsAndLimits {Pod : Type}
    (PodRequestsAndLimits : Pod -> ResourceList * ResourceList)
    (podList : option (list Pod)) : option (ResourceList * ResourceList) :=
  match podList with
  | None => None
  | Some items =>
      Some (foldl (fun acc pod =>
                     (add_pod_values acc.1 (PodRequestsAndLimits pod).1,
                      add_pod_values acc.2 (PodRequestsAndLimits pod).2))
                  (∅, ∅) items)
  end.

(* ===================================================================== *)
(** ** [getK8sVersion] of [cmd/virtual-kubelet/main.go] *)
(* ===================================================================== *)

Definition defaultK8sVersion : string := "v1.18.2".

(** Handles of [*rest.Config] and [*discovery.DiscoveryClient]. *)
Inductive RestConfig := RestConfigOf (handle : nat).
Inductive DiscoveryClient := DiscoveryClientOf (handle : nat).

(** The process arguments and the collaborators [getK8sVersion] calls.
    [os_Stat_IsNotExist path] is [os.IsNotExist(err)] for the [err] of
    [os.Stat(path)].  The collaborators of client-go answer with a value
    or an error, or panic themselves. *)
Record Host := mkHost {
  os_Args : list string;
  os_Stat_IsNotExist : string -> bool;
  clientcmd_BuildConfigFromFlags : string -> Result (Answer RestConfig);
  rest_InClusterConfig : Result (Answer RestConfig);
  discovery_NewDiscoveryClientForConfig : RestConfig -> Result (Answer DiscoveryClient);
  discovery_ServerVersion : DiscoveryClient -> Result (Answer string)
}.

(** [discovery.NewDiscoveryClientForConfig(config)]: the configurations
    built here carry no user agent, so client-go derives the default one
    from [os.Args[0]], which panics in a process started without any
    argument; otherwise the collaborator answers. *)
Definition new_discovery_client (host : Host) (config : RestConfig)
    : Result (Answer DiscoveryClient) :=
  match os_Args host with
  | [] => Panic "index out of range [0] with length 0"
  | _ :: _ => discovery_NewDiscoveryClientForConfig host config
  end.

(** [for i := 1; i < len(os.Args); i++ { if os.Args[i] == "--kubeconfig"
    { configPath = os.Args[i+1] } }], entered at index [i] with
    [remaining = len(os.Args) - i] iterations to go; [os.Args[i+1]]
    panics when the flag is the last argument ([None]). *)
Fixpoint scan_kubeconfig (args : list string) (i remaining : nat)
    (configPath : string) : option string :=
  match remaining with
  | O => Some configPath
  | S remaining' =>
      match args !! i with
      | None => None
      | Some arg =>
          if String.eqb arg "--kubeconfig" then
            match args !! S i with
            | None => None
            | Some next => scan_kubeconfig args (S i) remaining' next
            end
          else scan_kubeconfig args (S i) remaining' configPath
      end
  end.

(** The path the configuration is read from: the scanned one, or the
    default when none (or an empty one) was given. *)
Definition kubeconfig_path (args : list string) (defaultConfigPath : string)
    : option string :=
  match scan_kubeconfig args 1 (length args - 1) EmptyString with
  | None => None
  | Some configPath =>
      Some (if String.eqb configPath EmptyString then defaultConfigPath
            else configPath)
  end.

(** [getK8sVersion]: the version returned and the errors warned about
    ([Warnf("Cannot read k8s version: using default version ...")]); a
    panic of the argument scan or of a collaborator ends the call. *)
Definition getK8sVersion (host : Host) (defaultConfigPath : string)
    : Result (string * list string) :=
  match kubeconfig_path (os_Args host) defaultConfigPath with
  | None => Panic "index out of range"
  | Some configPath =>
      let config :=
        if negb (os_Stat_IsNotExist host configPath)
        then clientcmd_BuildConfigFromFlags host configPath
        else rest_InClusterConfig host in
      match config with
      | Panic msg => Panic msg
      | Value (Err e) => Value (defaultK8sVersion, [e])
      | Value (Ok config) =>
          match new_discovery_client host config with
          | Panic msg => Panic msg
          | Value (Err e) => Value (defaultK8sVersion, [e])
          | Value (Ok c) =>
              match discovery_ServerVersion host c with
              | Panic msg => Panic msg
              | Value (Err e) => Value (defaultK8sVersion, [e])
              | Value (Ok gitVersion) => Value (gitVersion, [])
              end
          end
      end
  end.

(* ===================================================================== *)
(** ** Vocabulary of the statements *)
(* ===================================================================== *)

(** The exact sum, over the nodes, of one allocatable quantity. *)
Definition exact_sum (pick : ResourceList -> Quantity) (nodes : list Node) : Z :=
  foldr (fun node s => (nano (pick (Status_Allocatable node)) + s)%Z) 0%Z nodes.

(** Every image reported by the nodes, node after node. *)
Definition reported_images (nodes : list Node) : list ContainerImage :=
  concat (Status_Images <$> nodes).

(** Every name of every image. *)
Definition image_names (images : list ContainerImage) : list string :=
  concat (Names <$> images).

(** The price list covers the capacity snapshot: each resource kind of
    the snapshot has a price. *)
Definition prices_cover_snapshot (nodes : list Node) : Prop :=
  ∀ kind : string,
    is_Some ((GetClusterResources nodes).1 !! kind) →
    is_Some (ComputePrices (GetClusterResources nodes).2 !! kind).

(** The advertisement a build returns, given the pod CIDR and the two
    clock readings. *)
Definition built (clusterId gatewayIP gatewayPrivateIp : string)
    (nodes : list Node) (podCIDR : string) (t1 t2 : Z) : Advertisement :=
  mkAdvertisement
    ("advertisement-" +:+ clusterId) "default" clusterId
    (GetClusterResources nodes).2 (GetClusterResources nodes).1 []
    (ComputePrices (GetClusterResources nodes).2)
    (mkNetworkInfo podCIDR gatewayIP gatewayPrivateIp [])
    t1 (t2 + 30 * Minute)%Z.

(** The log line of a failed connection attempt. *)
Abbreviation retry_message id :=
  ("Unable to create client to remote cluster " +:+ id +:+ ". Retry in 1 minute").

(** Counters over a trace. *)
Definition is_watch_start (e : Event) : bool :=
  match e with WatchStarted _ _ => true | _ => false end.

Definition is_publish_success (e : Event) : bool :=
  match e with Upserted _ _ None => true | _ => false end.

Definition is_sleep (d : Z) (e : Event) : bool :=
  match e with Slept d' => (d' =? d)%Z | _ => false end.

Definition count_events (p : Event -> bool) (tr : list Event) : nat :=
  length (List.filter p tr).

Definition watcher_starts (w : World) : nat := count_events is_watch_start (w_trace w).
Definition publish_successes (w : World) : nat := count_events is_publish_success (w_trace w).
Definition sleeps (d : Z) (w : World) : nat := count_events (is_sleep d) (w_trace w).

(* ===================================================================== *)
(** ** Concrete inputs of the examples *)
(* ===================================================================== *)

(** Two nodes that report the same image. *)
Definition image_app_v1 : ContainerImage := mkImage ["app:v1"] 1000.
Definition two_nodes_same_image : list Node :=
  [ mkNode "node-a" "10.32.0.0/24" ∅ [image_app_v1];
    mkNode "node-b" "10.32.1.0/24" ∅ [image_app_v1] ].

(** A node whose pod CIDR is the one of the specification's example. *)
Definition node_10_32 : Node :=
  mkNode "node-1" "10.32.0.5/24"
         (<[ResourcePods := mkQuantity (110 * 10 ^ 9) Resource.DecimalSI]>
            (<[ResourceMemory := mkQuantity (16 * 2 ^ 30 * 10 ^ 9) Resource.BinarySI]>
               (<[ResourceCPU := mkQuantity (8 * 10 ^ 9) Resource.DecimalSI]> ∅)))
         [image_app_v1].

(** A node whose pod CIDR has no dot. *)
Definition node_no_dot : Node := mkNode "node-2" "fd00::/64" ∅ [].

(** In production no kubeconfig path is given: the paths are empty. *)
Definition no_path : string := EmptyString.

(** A record named by the bare prefix, and a well-formed one. *)
Definition cm_bare_prefix : ConfigMap :=
  mkConfigMap "foreign-kubeconfig" [("remote", "kubeconfig-of-a-peer")].
Definition cm_peer_a : ConfigMap :=
  mkConfigMap "foreign-kubeconfig-peer-a" [("remote", "kubeconfig-of-peer-a")].
Definition cm_peer_b : ConfigMap :=
  mkConfigMap "foreign-kubeconfig-peer-b" [("remote", "kubeconfig-of-peer-b")].

(** An environment in which every collaborator succeeds, every listing
    returns one node, and the clock advances by one nanosecond per
    reading. *)
Definition env_all_good : Env :=
  mkEnv (fun _ => Ok tt)
        (fun k _ _ => Ok (ClientTo k))
        (Ok [cm_peer_a; cm_peer_b])
        (fun _ => Ok [node_10_32])
        (fun _ _ _ => None)
        (fun k => (1000 + Z.of_nat k)%Z).

(** The same, but the first listing of the nodes fails. *)
Definition env_list_fails_first : Env :=
  mkEnv (fun _ => Ok tt)
        (fun k _ _ => Ok (ClientTo k))
        (Ok [cm_peer_a])
        (fun k => match k with O => Err "timeout" | S _ => Ok [node_10_32] end)
        (fun _ _ _ => None)
        (fun k => (1000 + Z.of_nat k)%Z).

(** The connector fails on its first [failures] calls. *)
Definition env_connect_fails (failures : nat) : Env :=
  mkEnv (fun _ => Ok tt)
        (fun k _ _ => if (k <? failures)%nat then Err "unreachable" else Ok (ClientTo k))
        (Ok [cm_peer_a])
        (fun _ => Ok [node_10_32])
        (fun _ _ _ => None)
        (fun k => (1000 + Z.of_nat k)%Z).

(** The discovery finds the bare-prefix record next to a well-formed one. *)
Definition env_bare_prefix : Env :=
  mkEnv (fun _ => Ok tt)
        (fun k _ _ => Ok (ClientTo k))
        (Ok [cm_peer_a; cm_bare_prefix])
        (fun _ => Ok [node_10_32])
        (fun _ _ _ => None)
        (fun k => (1000 + Z.of_nat k)%Z).

(* ===================================================================== *)
(** ** Further vocabulary and inputs *)
(* ===================================================================== *)

(** More counters over a trace. *)
Definition is_wg_add (e : Event) : bool :=
  match e with WgAdd => true | _ => false end.

Definition is_wg_done (e : Event) : bool :=
  match e with WgDone => true | _ => false end.

Definition wg_adds (w : World) : nat := count_events is_wg_add (w_trace w).
Definition wg_dones (w : World) : nat := count_events is_wg_done (w_trace w).

(** The amount a map holds for a key, zero when the key is absent. *)
Definition amount_of (rl : ResourceList) (name : string) : Z :=
  match rl !! name with
  | Some q => nano q
  | None => 0%Z
  end.

(** The clock never runs backwards. *)
Definition monotone_clock (env : Env) : Prop :=
  ∀ i j, i ≤ j → (env_Now env i ≤ env_Now env j)%Z.

(** The events a run appended to the trace. *)
Definition appended (w w' : World) (events : list Event) : Prop :=
  w_trace w' = w_trace w ++ events.

(** An upsert of an advertisement of cluster [clusterId] through the
    client [remote]. *)
Definition upsert_of (clusterId : string) (remote : option Client) (e : Event) : Prop :=
  match e with
  | Upserted remote' adv _ =>
      remote' = remote ∧
      adv_Name adv = "advertisement-" +:+ clusterId ∧
      adv_Namespace adv = "default" ∧
      ClusterId adv = clusterId
  | _ => True
  end.

(** The exact sum, over the pods, of the amounts one of their maps holds
    for a resource name. *)
Definition total_amount {Pod : Type} (values : Pod -> ResourceList)
    (items : list Pod) (name : string) : Z :=
  foldr (fun pod s => (amount_of (values pod) name + s)%Z) 0%Z items.

(** The scan of [getK8sVersion] over the arguments that are still to be
    visited, by recursion on that list. *)
Fixpoint scan_rest (rest : list string) (configPath : string) : option string :=
  match rest with
  | [] => Some configPath
  | arg :: rest' =>
      if String.eqb arg "--kubeconfig" then
        match rest' with
        | [] => None
        | next :: _ => scan_rest rest' next
        end
      else scan_rest rest' configPath
  end.

(** The events of one publish cycle that lists at least one node: the
    upsert with its outcome, the log line, the start of the watcher if
    the upsert succeeded and the guard had not fired, the sleep. *)
Definition cycle_events (clusterId foreignClusterId : string)
    (remote : option Client) (adv : Advertisement) (err : option string)
    (once : bool) : list Event :=
  Upserted remote adv err ::
  match err with
  | Some e =>
      [LogError e ("Unable to create advertisement on remote cluster "
                   +:+ foreignClusterId)]
  | None =>
      LogInfo ("correctly created advertisement on remote cluster "
               +:+ foreignClusterId)
      :: (if once then [] else [WatchStarted clusterId foreignClusterId])
  end ++ [Slept (10 * Minute)].

(** The task is still in its loop. *)
Definition is_running (r : Result Outcome) : bool :=
  match r with
  | Value Running => true
  | _ => false
  end.

(** A log line. *)
Definition is_log (e : Event) : Prop :=
  match e with
  | LogError _ _ | LogInfo _ => True
  | _ => False
  end.

(** What the connection loop may append to the trace. *)
Definition connect_event (e : Event) : Prop :=
  match e with
  | LogError _ _ => True
  | Slept d => d = (1 * Minute)%Z
  | _ => False
  end.

(** What the publish loop may append to the trace. *)
Definition loop_event (clusterId : string) (remote : option Client) (e : Event) : Prop :=
  upsert_of clusterId remote e ∧
  match e with
  | WgAdd | WgDone => False
  | Slept d => d = (10 * Minute)%Z
  | _ => True
  end.

(** Pods described by what [PodRequestsAndLimits] returns for them. *)
Record PodTotals := mkPodTotals {
  pt_Requests : ResourceList;
  pt_Limits : ResourceList
}.

Definition pod_totals (pod : PodTotals) : ResourceList * ResourceList :=
  (pt_Requests pod, pt_Limits pod).

Definition pod_small : PodTotals :=
  mkPodTotals (<[ResourceCPU := mkQuantity (250 * 10 ^ 6) Resource.DecimalSI]> ∅)
              (<[ResourceMemory := mkQuantity (64 * 2 ^ 20 * 10 ^ 9) Resource.BinarySI]> ∅).

Definition pod_large : PodTotals :=
  mkPodTotals (<[ResourceMemory := mkQuantity (2 ^ 30 * 10 ^ 9) Resource.BinarySI]>
                 (<[ResourceCPU := mkQuantity (2 * 10 ^ 9) Resource.DecimalSI]> ∅))
              (<[ResourceMemory := mkQuantity (2 * 2 ^ 30 * 10 ^ 9) Resource.BinarySI]> ∅).

(** A host whose collaborators all succeed. *)
Definition host_with_args (args : list string) : Host :=
  mkHost args (fun _ => false)
         (fun _ => Value (Ok (RestConfigOf 1))) (Value (Ok (RestConfigOf 0)))
         (fun _ => Value (Ok (DiscoveryClientOf 0)))
         (fun _ => Value (Ok "v1.19.0")).

(** An environment whose listing returns no node at its first call. *)
Definition env_no_nodes : Env :=
  mkEnv (fun _ => Ok tt)
        (fun k _ _ => Ok (ClientTo k))
        (Ok [cm_peer_a])
        (fun _ => Ok [])
        (fun _ _ _ => None)
        (fun k => (1000 + Z.of_nat k)%Z).

(** An environment whose upserts all fail. *)
Definition env_publish_fails : Env :=
  mkEnv (fun _ => Ok tt)
        (fun k _ _ => Ok (ClientTo k))
        (Ok [cm_peer_a])
        (fun _ => Ok [node_10_32])
        (fun _ _ _ => Some "connection refused")
        (fun k => (1000 + Z.of_nat k)%Z).

(** The connector fails once and then succeeds; the second listing of
    the nodes fails. *)
Definition env_reconnect_list_fails : Env :=
  mkEnv (fun _ => Ok tt)
        (fun k _ _ => if (k <? 1)%nat then Err "unreachable" else Ok (ClientTo k))
        (Ok [cm_peer_a])
        (fun k => match k with
                  | 1 => Err "timeout"
                  | _ => Ok [node_10_32]
                  end)
        (fun _ _ _ => None)
        (fun k => (1000 + Z.of_nat k)%Z).

(** The connector fails twice and then succeeds; the second listing
    returns no node. *)
Definition env_reconnect_no_nodes : Env :=
  mkEnv (fun _ => Ok tt)
        (fun k _ _ => if (k <? 2)%nat then Err "unreachable" else Ok (ClientTo k))
        (Ok [cm_peer_a])
        (fun k => match k with
                  | 1 => Ok []
                  | _ => Ok [node_10_32]
                  end)
        (fun _ _ _ => None)
        (fun k => (1000 + Z.of_nat k)%Z).

(** Environments in which the broadcaster cannot start. *)
Definition env_no_local_client : Env :=
  mkEnv (fun _ => Err "no kubeconfig")
        (fun k _ _ => Ok (ClientTo k))
        (Ok [cm_peer_a])
        (fun _ => Ok [node_10_32])
        (fun _ _ _ => None)
        (fun k => (1000 + Z.of_nat k)%Z).

(* ===================================================================== *)
(** ** Aggregation: [GetClusterResources] *)
(* ===================================================================== *)

Section Aggregation.

Lemma append_images_app images reported :
  append_images images reported = images ++ reported.
Proof.
  unfold append_images. revert images.
  induction reported as [|image reported IH]; intros images; simpl.
  - by rewrite app_nil_r.
  - rewrite IH. by rewrite <- app_assoc.
Qed.

Lemma Add_nano q y : nano (Resource.Add q y) = (nano q + nano y)%Z.
Proof. reflexivity. Qed.

(** The loop invariant of [for _, node := range nodes]. *)
Lemma foldl_add_node nodes acc :
  let acc' := foldl add_node acc nodes in
  nano (t_cpu acc') = (nano (t_cpu acc) + exact_sum Cpu nodes)%Z ∧
  nano (t_ram acc') = (nano (t_ram acc) + exact_sum Memory nodes)%Z ∧
  nano (t_pods acc') = (nano (t_pods acc) + exact_sum Pods nodes)%Z ∧
  t_images acc' = t_images acc ++ reported_images nodes.
Proof.
  revert acc. induction nodes as [|node nodes IH]; intros acc; simpl.
  - unfold reported_images. simpl. rewrite app_nil_r.
    repeat split; lia.
  - destruct (IH (add_node acc node)) as (Hc & Hr & Hp & Hi).
    rewrite Hc, Hr, Hp, Hi. unfold add_node; simpl.
    rewrite append_images_app, <- app_assoc.
    unfold reported_images at 2; simpl. fold (reported_images nodes).
    repeat split; lia || reflexivity.
Qed.

Lemma GetClusterResources_images nodes :
  (GetClusterResources nodes).2 = reported_images nodes.
Proof.
  unfold GetClusterResources; simpl.
  by destruct (foldl_add_node nodes
                 (mkTotals Resource.zero Resource.zero Resource.zero []))
    as (_ & _ & _ & ->).
Qed.

End Aggregation.

(** C6.  For every node list the CPU, memory and pod-slot entries of the
    snapshot returned by [GetClusterResources] are the exact integer sums
    of the nodes' allocatable CPU, memory and pod quantities, the snapshot
    has exactly these three entries, and for the empty node list the
    function returns the all-zero snapshot together with the empty image
    list. *)
Theorem GetClusterResources_exact_sums (nodes : list Node) :
  nano <$> (GetClusterResources nodes).1 !! ResourceCPU = Some (exact_sum Cpu nodes) ∧
  nano <$> (GetClusterResources nodes).1 !! ResourceMemory = Some (exact_sum Memory nodes) ∧
  nano <$> (GetClusterResources nodes).1 !! ResourcePods = Some (exact_sum Pods nodes) ∧
  dom (GetClusterResources nodes).1
    = ({[ResourceCPU; ResourceMemory; ResourcePods]} : gset string) ∧
  GetClusterResources []
    = (<[ResourcePods := Resource.zero]>
         (<[ResourceMemory := Resource.zero]>
            (<[ResourceCPU := Resource.zero]> ∅)), []).
Proof.
  destruct (foldl_add_node nodes
              (mkTotals Resource.zero Resource.zero Resource.zero []))
    as (Hc & Hr & Hp & _).
  simpl in Hc, Hr, Hp.
  unfold GetClusterResources; cbn [fst snd].
  split; [|split; [|split; [|split]]].
  - rewrite lookup_insert_ne by done. rewrite lookup_insert_ne by done.
    rewrite lookup_insert_eq. simpl. by rewrite Hc.
  - rewrite lookup_insert_ne by done. rewrite lookup_insert_eq.
    simpl. by rewrite Hr.
  - rewrite lookup_insert_eq. simpl. by rewrite Hp.
  - rewrite !dom_insert_L, dom_empty_L. set_solver.
  - reflexivity.
Qed.

Example GetClusterResources_scenario :
  nano <$> (GetClusterResources [node_10_32; node_10_32]).1 !! ResourceCPU
  = Some (16 * 10 ^ 9)%Z ∧
  nano <$> (GetClusterResources [node_10_32; node_10_32]).1 !! ResourcePods
  = Some (220 * 10 ^ 9)%Z.
Proof. split; reflexivity. Qed.

(** C7, as the code has it.  The image list returned by
    [GetClusterResources] is the concatenation, node after node, of the
    image lists the nodes report: an image is in it exactly when some node
    reports it, and it is repeated as often as it is reported. *)
Theorem GetClusterResources_images_concat (nodes : list Node) :
  (GetClusterResources nodes).2 = reported_images nodes ∧
  (∀ image, image ∈ (GetClusterResources nodes).2 ↔
            ∃ node, node ∈ nodes ∧ image ∈ Status_Images node) ∧
  length (GetClusterResources nodes).2
    = sum_list (length ∘ Status_Images <$> nodes).
Proof.
  rewrite GetClusterResources_images. split; [done|]. split.
  - intros image. unfold reported_images.
    induction nodes as [|node nodes IH]; simpl.
    + split; [by intros ?%elem_of_nil|]. by intros (? & ?%elem_of_nil & _).
    + rewrite elem_of_app, IH. split.
      * intros [Hin|(node' & Hn & Hin)].
        -- exists node. split; [by left|done].
        -- exists node'. split; [by right|done].
      * intros (node' & Hn & Hin). apply elem_of_cons in Hn as [->|Hn].
        -- by left.
        -- right. by exists node'.
  - unfold reported_images. induction nodes as [|node nodes IH]; simpl; [done|].
    rewrite length_app. by f_equal.
Qed.

(** C7, counterexample.  When two nodes report the same image, the image
    list returned by [GetClusterResources] holds it twice: it is not a
    set. *)
Lemma GetClusterResources_images_duplicated :
  (GetClusterResources two_nodes_same_image).2 = [image_app_v1; image_app_v1] ∧
  ¬ NoDup (GetClusterResources two_nodes_same_image).2.
Proof.
  split; [reflexivity|].
  intros Hnd. change (NoDup [image_app_v1; image_app_v1]) in Hnd.
  apply NoDup_cons in Hnd as [Hnotin _]. apply Hnotin. by left.
Qed.

(* ===================================================================== *)
(** ** Prices: [ComputePrices] *)
(* ===================================================================== *)

Section Prices.

Lemma price_names_dom names (prices : ResourceList) :
  dom (price_names prices names) = dom prices ∪ list_to_set names.
Proof.
  unfold price_names. revert prices.
  induction names as [|name names IH]; intros prices; simpl.
  - set_solver.
  - rewrite IH, dom_insert_L. set_solver.
Qed.

Lemma price_images_dom images (prices : ResourceList) :
  dom (foldl (fun p image => price_names p (Names image)) prices images)
  = dom prices ∪ list_to_set (image_names images).
Proof.
  revert prices. induction images as [|image images IH]; intros prices; simpl.
  - set_solver.
  - rewrite IH, price_names_dom. unfold image_names; simpl.
    rewrite list_to_set_app_L. set_solver.
Qed.

End Prices.

(** The node of the specification's end-to-end scenario: CPU, memory and
    one image name are priced, the pod slots are not. *)
Example ComputePrices_scenario :
  let prices := ComputePrices (GetClusterResources [node_10_32]).2 in
  prices !! ResourceCPU = Some (mkQuantity (1 * 10 ^ 9) Resource.DecimalSI) ∧
  prices !! ResourceMemory = Some (mkQuantity (2 * 2 ^ 30 * 10 ^ 9) Resource.BinarySI) ∧
  prices !! "app:v1" = Some (mkQuantity (5 * 10 ^ 9) Resource.DecimalSI) ∧
  prices !! ResourcePods = None.
Proof. repeat split; reflexivity. Qed.

(** C2, as the code has it.  For every node list, the keys of the price
    list computed for the aggregated images are exactly CPU, memory and
    every name of every image in the image list: there is an entry for
    CPU, one for memory and one for each image name, and no other. *)
Theorem ComputePrices_entries (nodes : list Node) :
  dom (ComputePrices (GetClusterResources nodes).2)
  = ({[ResourceCPU; ResourceMemory]} : gset string)
      ∪ list_to_set (image_names (GetClusterResources nodes).2).
Proof.
  unfold ComputePrices. rewrite price_images_dom.
  rewrite !dom_insert_L, dom_empty_L. set_solver.
Qed.

(** C2, counterexample.  For the empty node list the capacity snapshot
    has a pod-slot entry and the price list has none: the price list
    does not cover the snapshot. *)
Lemma ComputePrices_misses_pods :
  is_Some ((GetClusterResources []).1 !! ResourcePods) ∧
  ComputePrices (GetClusterResources []).2 !! ResourcePods = None ∧
  ¬ prices_cover_snapshot [].
Proof.
  assert (Hs : is_Some ((GetClusterResources []).1 !! ResourcePods))
    by (eexists; reflexivity).
  assert (Hn : ComputePrices (GetClusterResources []).2 !! ResourcePods = None)
    by reflexivity.
  split; [done|]. split; [done|].
  intros Hcover. specialize (Hcover ResourcePods Hs).
  rewrite Hn in Hcover. by destruct Hcover.
Qed.

(* ===================================================================== *)
(** ** The pod CIDR: [strings.Split] and [GetPodCIDR] *)
(* ===================================================================== *)

Section Split.

Variable sep : ascii.

Lemma Split_length s :
  length (GoStrings.Split s sep) = S (GoStrings.Count s sep).
Proof.
  induction s as [|c s IH]; simpl; [done|].
  destruct (Ascii.eqb c sep); simpl; [by rewrite IH|].
  destruct (GoStrings.Split s sep); simpl in *; done.
Qed.

Lemma Split_Join s : GoStrings.Join (GoStrings.Split s sep) sep = s.
Proof.
  induction s as [|c s IH]; simpl; [done|].
  destruct (Ascii.eqb_spec c sep) as [->|Hne].
  - pose proof (Split_length s) as Hlen.
    simpl. destruct (GoStrings.Split s sep) as [|tok toks] eqn:E;
      [by simpl in Hlen|].
    by rewrite IH.
  - pose proof (Split_length s) as Hlen.
    destruct (GoStrings.Split s sep) as [|tok toks] eqn:E;
      [by simpl in Hlen|].
    simpl in *. destruct toks; simpl in *; by rewrite <- IH.
Qed.

Lemma Split_tokens s :
  Forall (fun tok => GoStrings.Count tok sep = 0) (GoStrings.Split s sep).
Proof.
  induction s as [|c s IH]; simpl.
  - by constructor.
  - destruct (Ascii.eqb c sep) eqn:Ec.
    + by constructor.
    + destruct (GoStrings.Split s sep) as [|tok toks]; simpl.
      * constructor; [|done]. simpl. by rewrite Ec.
      * apply Forall_cons in IH as [Htok Htoks].
        constructor; [|done]. simpl. by rewrite Ec.
Qed.

End Split.

Example Split_cidr :
  GoStrings.Split "10.32.0.5/24" "." = ["10"; "32"; "0"; "5/24"].
Proof. reflexivity. Qed.

Example Split_no_dot : GoStrings.Split "fd00::/64" "." = ["fd00::/64"].
Proof. reflexivity. Qed.

Example Split_trailing_dot : GoStrings.Split "10." "." = ["10"; EmptyString].
Proof. reflexivity. Qed.

Example GetPodCIDR_single_dot :
  GetPodCIDR [mkNode "node-3" "10." ∅ []] = Some "10..0.0/16".
Proof. reflexivity. Qed.

(** C5.  [GetPodCIDR] reads the pod CIDR of the first node and splits it
    at the dots.  With at least two pieces the result is the first two
    pieces followed by [.0.0/16]; with fewer than two pieces (no dot at
    all) it is the default block [172.17.0.0/16]; and [10.32.0.5/24]
    gives [10.32.0.0/16]. *)
Theorem GetPodCIDR_first_node (node : Node) (rest : list Node) :
  let token := GoStrings.Split (Spec_PodCIDR node) "." in
  (2 ≤ length token →
     ∃ t0 t1 more, token = t0 :: t1 :: more ∧
       GetPodCIDR (node :: rest) = Some (t0 +:+ "." +:+ t1 +:+ ".0.0/16")) ∧
  (length token < 2 →
     GoStrings.Count (Spec_PodCIDR node) "." = 0 ∧
     GetPodCIDR (node :: rest) = Some default_PodCIDR) ∧
  (Spec_PodCIDR node = "10.32.0.5/24" →
     GetPodCIDR (node :: rest) = Some "10.32.0.0/16").
Proof.
  intros token. unfold GetPodCIDR; simpl. fold token.
  split; [|split].
  - intros Hlen. destruct token as [|t0 [|t1 more]] eqn:E; simpl in Hlen; try lia.
    exists t0, t1, more. split; [done|]. simpl. done.
  - intros Hlen. split.
    + subst token. rewrite Split_length in Hlen. lia.
    + destruct token as [|t0 [|t1 more]]; simpl in Hlen; try lia; reflexivity.
  - intros Hs. subst token. rewrite Hs. reflexivity.
Qed.

(** C5, witness: the first node of the specification's example, and a
    node whose CIDR has no dot. *)
Lemma GetPodCIDR_first_node_witness :
  GetPodCIDR [node_10_32; node_no_dot] = Some "10.32.0.0/16" ∧
  (∃ t0 t1 more,
     GoStrings.Split (Spec_PodCIDR node_10_32) "." = t0 :: t1 :: more ∧
     GetPodCIDR [node_10_32] = Some (t0 +:+ "." +:+ t1 +:+ ".0.0/16")) ∧
  GetPodCIDR [node_no_dot; node_10_32] = Some default_PodCIDR.
Proof.
  split; [|split].
  - apply (GetPodCIDR_first_node node_10_32 [node_no_dot]). reflexivity.
  - apply (GetPodCIDR_first_node node_10_32 []). vm_compute. lia.
  - apply (GetPodCIDR_first_node node_no_dot [node_10_32]). vm_compute. lia.
Defined.

(* ===================================================================== *)
(** ** [CreateAdvertisement] *)
(* ===================================================================== *)

Section Build.

Variable env : Env.
Variables clusterId gatewayIP gatewayPrivateIp : string.

Lemma GetPodCIDR_cons node rest : is_Some (GetPodCIDR (node :: rest)).
Proof. unfold GetPodCIDR; simpl. by eexists. Qed.

Lemma GetPodCIDR_nil : GetPodCIDR [] = None.
Proof. reflexivity. Qed.

(** A build on a non-empty node list reads the clock twice and touches
    nothing else. *)
Lemma CreateAdvertisement_cons node rest w :
  ∃ podCIDR,
    GetPodCIDR (node :: rest) = Some podCIDR ∧
    CreateAdvertisement env (node :: rest) clusterId gatewayIP gatewayPrivateIp w
    = (Value (built clusterId gatewayIP gatewayPrivateIp (node :: rest) podCIDR
                    (env_Now env (w_clock_reads w))
                    (env_Now env (S (w_clock_reads w)))),
       mkWorld (w_connects w) (w_lists w) (w_publishes w)
               (S (S (w_clock_reads w))) (w_trace w)).
Proof.
  destruct (GetPodCIDR_cons node rest) as [podCIDR Hp].
  exists podCIDR. split; [done|].
  unfold CreateAdvertisement, built.
  destruct (GetClusterResources (node :: rest)) as [availability images].
  rewrite Hp. reflexivity.
Qed.

Lemma CreateAdvertisement_nil w :
  CreateAdvertisement env [] clusterId gatewayIP gatewayPrivateIp w
  = (Panic "index out of range [0] with length 0", w).
Proof. reflexivity. Qed.

End Build.

(** C10.  [GetPodCIDR] reads [nodes[0]] unconditionally, so on the empty
    node list [CreateAdvertisement] panics with an index out of range,
    before it reads the clock and without returning any advertisement;
    on every non-empty node list it returns an advertisement. *)
Theorem CreateAdvertisement_needs_first_node
    (env : Env) (clusterId gatewayIP gatewayPrivateIp : string) (w : World) :
  GetPodCIDR [] = None ∧
  CreateAdvertisement env [] clusterId gatewayIP gatewayPrivateIp w
    = (Panic "index out of range [0] with length 0", w) ∧
  (∀ adv w', CreateAdvertisement env [] clusterId gatewayIP gatewayPrivateIp w
             ≠ (Value adv, w')) ∧
  (∀ node rest, ∃ adv w',
      CreateAdvertisement env (node :: rest) clusterId gatewayIP gatewayPrivateIp w
      = (Value adv, w') ∧
      Availability adv = (GetClusterResources (node :: rest)).1).
Proof.
  split; [reflexivity|]. split; [reflexivity|]. split.
  - intros adv w'. rewrite CreateAdvertisement_nil. discriminate.
  - intros node rest.
    destruct (CreateAdvertisement_cons env clusterId gatewayIP gatewayPrivateIp
                node rest w) as (podCIDR & _ & ->).
    eexists _, _. split; reflexivity.
Qed.

(** C4, as the code has it.  A build on a non-empty node list stamps the
    advertisement with the first clock reading and sets the expiry to 30
    minutes after a second, separate clock reading.  When both readings
    are the same instant [now], the creation time is [now] and the expiry
    is exactly [now + 30 minutes]; and two builds from the same node list
    and arguments whose clock readings agree return the same
    advertisement. *)
Theorem CreateAdvertisement_timestamps
    (env : Env) (nodes : list Node)
    (clusterId gatewayIP gatewayPrivateIp : string) (w : World) :
  nodes ≠ [] →
  ∃ adv w',
    CreateAdvertisement env nodes clusterId gatewayIP gatewayPrivateIp w = (Value adv, w') ∧
    Timestamp adv = env_Now env (w_clock_reads w) ∧
    TimeToLive adv = (env_Now env (S (w_clock_reads w)) + 30 * Minute)%Z ∧
    (∀ now, env_Now env (w_clock_reads w) = now →
            env_Now env (S (w_clock_reads w)) = now →
            Timestamp adv = now ∧ TimeToLive adv = (now + 30 * Minute)%Z) ∧
    (∀ env2 w2,
        env_Now env2 (w_clock_reads w2) = env_Now env (w_clock_reads w) →
        env_Now env2 (S (w_clock_reads w2)) = env_Now env (S (w_clock_reads w)) →
        (CreateAdvertisement env2 nodes clusterId gatewayIP gatewayPrivateIp w2).1
        = Value adv).
Proof.
  intros Hnodes. destruct nodes as [|node rest]; [done|].
  destruct (CreateAdvertisement_cons env clusterId gatewayIP gatewayPrivateIp
              node rest w) as (podCIDR & Hp & Hrun).
  eexists _, _. split; [exact Hrun|]. cbn [Timestamp TimeToLive built].
  split; [done|]. split; [done|]. split.
  - intros now H1 H2. by rewrite H1, H2.
  - intros env2 w2 H1 H2.
    destruct (CreateAdvertisement_cons env2 clusterId gatewayIP gatewayPrivateIp
                node rest w2) as (podCIDR2 & Hp2 & ->).
    rewrite Hp in Hp2. injection Hp2 as <-. cbn [fst]. by rewrite H1, H2.
Qed.

(** C4, witness: one node, a clock that stands still. *)
Lemma CreateAdvertisement_timestamps_witness :
  ∃ adv w',
    CreateAdvertisement (mkEnv (fun _ => Ok tt) (fun k _ _ => Ok (ClientTo k))
                               (Ok []) (fun _ => Ok [node_10_32])
                               (fun _ _ _ => None) (fun _ => 5000%Z))
                        [node_10_32] "cluster-1" "1.2.3.4" "10.0.0.1" initial_world
    = (Value adv, w') ∧
    Timestamp adv = 5000%Z ∧ TimeToLive adv = (5000 + 30 * Minute)%Z.
Proof.
  destruct (CreateAdvertisement_timestamps
              (mkEnv (fun _ => Ok tt) (fun k _ _ => Ok (ClientTo k))
                     (Ok []) (fun _ => Ok [node_10_32])
                     (fun _ _ _ => None) (fun _ => 5000%Z))
              [node_10_32] "cluster-1" "1.2.3.4" "10.0.0.1" initial_world)
    as (adv & w' & Hrun & Ht & Hl & _); [discriminate|].
  exists adv, w'. split; [exact Hrun|]. split; [exact Ht|exact Hl].
Defined.

(** C4, counterexample.  With a clock that advances between the two
    readings, the expiry is not the creation time plus 30 minutes. *)
Lemma CreateAdvertisement_two_clock_readings :
  ∃ adv w',
    CreateAdvertisement env_all_good [node_10_32] "cluster-1" "1.2.3.4" "10.0.0.1"
                        initial_world = (Value adv, w') ∧
    Timestamp adv = 1000%Z ∧
    TimeToLive adv = (1001 + 30 * Minute)%Z ∧
    TimeToLive adv ≠ (Timestamp adv + 30 * Minute)%Z.
Proof.
  destruct (CreateAdvertisement_cons env_all_good "cluster-1" "1.2.3.4" "10.0.0.1"
              node_10_32 [] initial_world) as (podCIDR & _ & ->).
  eexists _, _. split; [reflexivity|]. cbn [Timestamp TimeToLive built].
  split; [reflexivity|]. split; [reflexivity|]. vm_compute. discriminate.
Qed.

(* ===================================================================== *)
(** ** Traces *)
(* ===================================================================== *)

Section Traces.

Lemma count_events_app p tr1 tr2 :
  count_events p (tr1 ++ tr2) = count_events p tr1 + count_events p tr2.
Proof. unfold count_events. by rewrite List.filter_app, length_app. Qed.

Lemma watcher_starts_add e w :
  watcher_starts (add_event e w)
  = watcher_starts w + (if is_watch_start e then 1 else 0).
Proof.
  unfold watcher_starts, add_event; simpl. rewrite count_events_app.
  unfold count_events at 2; simpl. by destruct (is_watch_start e).
Qed.

Lemma publish_successes_add e w :
  publish_successes (add_event e w)
  = publish_successes w + (if is_publish_success e then 1 else 0).
Proof.
  unfold publish_successes, add_event; simpl. rewrite count_events_app.
  unfold count_events at 2; simpl. by destruct (is_publish_success e).
Qed.

Lemma sleeps_add d e w :
  sleeps d (add_event e w) = sleeps d w + (if is_sleep d e then 1 else 0).
Proof.
  unfold sleeps, add_event; simpl. rewrite count_events_app.
  unfold count_events at 2; simpl. by destruct (is_sleep d e).
Qed.

Lemma is_sleep_same d : is_sleep d (Slept d) = true.
Proof. simpl. apply Z.eqb_refl. Qed.

End Traces.

(** Unfold one layer of the monad. *)
Ltac go_unfold :=
  unfold bind, ret, panic, emit, log_Error, log_Info, time_Sleep,
         pkg_NewCRDClient, list_Nodes, pkg_CreateOrUpdate, time_Now, once_Do.

(* ===================================================================== *)
(** ** Connecting to the peer *)
(* ===================================================================== *)

Section Connect.

Variable env : Env.
Variables foreignKubeconfigPath clusterId gatewayIP gatewayPrivateIP : string.
Variable cm : option ConfigMap.
Variable foreignClusterId : string.

(** A failed attempt logs, sleeps one minute and goes round again. *)
Lemma connect_loop_Err remaining st e w :
  env_NewCRDClient env (w_connects w) foreignKubeconfigPath cm = Err e →
  connect_loop env foreignKubeconfigPath cm foreignClusterId (S remaining) st w
  = connect_loop env foreignKubeconfigPath cm foreignClusterId remaining
      (mkConnect (S (c_retry st)) None e)
      (add_event (Slept (1 * Minute))
         (add_event (LogError e ("Unable to create client to remote cluster "
                                 +:+ foreignClusterId +:+ ". Retry in 1 minute"))
            (mkWorld (S (w_connects w)) (w_lists w) (w_publishes w)
                     (w_clock_reads w) (w_trace w)))).
Proof. intros He. simpl. go_unfold. simpl. by rewrite He. Qed.

(** A successful attempt leaves the loop at once. *)
Lemma connect_loop_Ok remaining st c w :
  env_NewCRDClient env (w_connects w) foreignKubeconfigPath cm = Ok c →
  connect_loop env foreignKubeconfigPath cm foreignClusterId (S remaining) st w
  = (Value (mkConnect (c_retry st) (Some c) EmptyString),
     mkWorld (S (w_connects w)) (w_lists w) (w_publishes w)
             (w_clock_reads w) (w_trace w)).
Proof. intros Hc. simpl. go_unfold. simpl. by rewrite Hc. Qed.

(** What [GenerateAdvertisement] does once the connection loop is over. *)
Lemma GenerateAdvertisement_after_connect cycles st w w1 :
  cluster_id_suffix cm = Some foreignClusterId →
  connect_loop env foreignKubeconfigPath cm foreignClusterId 3
               (mkConnect 0 None EmptyString) w = (Value st, w1) →
  GenerateAdvertisement env cycles foreignKubeconfigPath cm
                        clusterId gatewayIP gatewayPrivateIP w
  = if (c_retry st =? 3)%nat then
      (Value Returned,
       add_event WgDone
         (add_event (LogError (c_err st)
                       ("Failed to create client to remote cluster "
                        +:+ foreignClusterId)) w1))
    else
      defer_Done
        (publish_loop env cm clusterId gatewayIP gatewayPrivateIP
                      foreignClusterId (c_remoteClient st) cycles false)
        (add_event (LogInfo ("created client to remote cluster "
                             +:+ foreignClusterId)) w1).
Proof.
  intros Hid Hconn.
  unfold GenerateAdvertisement, defer_Done, foreign_cluster_id.
  rewrite Hid. unfold bind at 1. unfold ret at 1. unfold bind at 1.
  rewrite Hconn. destruct (c_retry st =? 3)%nat; reflexivity.
Qed.

End Connect.

(** C8.  The connection loop makes at most 3 attempts and sleeps one
    minute after a failed one.  If the first two attempts fail and the
    third succeeds, exactly two one-minute sleeps have happened, the
    retry counter is 2, and the task goes on to its publish loop with the
    client of the third attempt.  If all three attempts fail, the task
    logs the failure and returns, whatever the number of cycles it is
    observed for: it has called the connector exactly three times and has
    neither listed the nodes nor published. *)
Theorem connect_retry_budget
    (env : Env) (foreignKubeconfigPath clusterId gatewayIP gatewayPrivateIP : string)
    (cm : option ConfigMap) (id : string) (w : World) :
  cluster_id_suffix cm = Some id →
  (∀ e1 e2 c,
      env_NewCRDClient env (w_connects w) foreignKubeconfigPath cm = Err e1 →
      env_NewCRDClient env (S (w_connects w)) foreignKubeconfigPath cm = Err e2 →
      env_NewCRDClient env (S (S (w_connects w))) foreignKubeconfigPath cm = Ok c →
      ∃ w1,
        connect_loop env foreignKubeconfigPath cm id 3 (mkConnect 0 None EmptyString) w
        = (Value (mkConnect 2 (Some c) EmptyString), w1) ∧
        w_connects w1 = 3 + w_connects w ∧
        w_trace w1 = w_trace w ++ [LogError e1 (retry_message id); Slept (1 * Minute);
                                   LogError e2 (retry_message id); Slept (1 * Minute)] ∧
        sleeps (1 * Minute) w1 = sleeps (1 * Minute) w + 2 ∧
        ∀ cycles,
          GenerateAdvertisement env cycles foreignKubeconfigPath cm
                                clusterId gatewayIP gatewayPrivateIP w
          = defer_Done
              (publish_loop env cm clusterId gatewayIP gatewayPrivateIP id
                            (Some c) cycles false)
              (add_event (LogInfo ("created client to remote cluster " +:+ id)) w1)) ∧
  (∀ e1 e2 e3,
      env_NewCRDClient env (w_connects w) foreignKubeconfigPath cm = Err e1 →
      env_NewCRDClient env (S (w_connects w)) foreignKubeconfigPath cm = Err e2 →
      env_NewCRDClient env (S (S (w_connects w))) foreignKubeconfigPath cm = Err e3 →
      ∀ cycles, ∃ w',
        GenerateAdvertisement env cycles foreignKubeconfigPath cm
                              clusterId gatewayIP gatewayPrivateIP w
        = (Value Returned, w') ∧
        w_connects w' = 3 + w_connects w ∧
        w_lists w' = w_lists w ∧
        w_publishes w' = w_publishes w ∧
        w_trace w' = w_trace w ++
          [LogError e1 (retry_message id); Slept (1 * Minute);
           LogError e2 (retry_message id); Slept (1 * Minute);
           LogError e3 (retry_message id); Slept (1 * Minute);
           LogError e3 ("Failed to create client to remote cluster " +:+ id);
           WgDone]).
Proof.
  intros Hid. split.
  - intros e1 e2 c H1 H2 H3.
    eexists. split; [|split; [|split; [|split]]].
    + rewrite (connect_loop_Err _ _ _ _ _ _ e1) by exact H1.
      rewrite (connect_loop_Err _ _ _ _ _ _ e2) by exact H2.
      rewrite (connect_loop_Ok _ _ _ _ _ _ c) by exact H3.
      reflexivity.
    + reflexivity.
    + simpl. rewrite <- !app_assoc. reflexivity.
    + unfold sleeps; simpl. rewrite <- !app_assoc, count_events_app.
      unfold count_events at 2. simpl. reflexivity.
    + intros cycles.
      erewrite GenerateAdvertisement_after_connect; [|exact Hid|].
      2:{ rewrite (connect_loop_Err _ _ _ _ _ _ e1) by exact H1.
          rewrite (connect_loop_Err _ _ _ _ _ _ e2) by exact H2.
          rewrite (connect_loop_Ok _ _ _ _ _ _ c) by exact H3.
          reflexivity. }
      reflexivity.
  - intros e1 e2 e3 H1 H2 H3 cycles.
    eexists. split; [|split; [|split; [|split]]].
    + erewrite GenerateAdvertisement_after_connect; [|exact Hid|].
      2:{ rewrite (connect_loop_Err _ _ _ _ _ _ e1) by exact H1.
          rewrite (connect_loop_Err _ _ _ _ _ _ e2) by exact H2.
          rewrite (connect_loop_Err _ _ _ _ _ _ e3) by exact H3.
          reflexivity. }
      reflexivity.
    + reflexivity.
    + reflexivity.
    + reflexivity.
    + simpl. rewrite <- !app_assoc. reflexivity.
Qed.

(** C8, witness: a connector that fails twice and then succeeds, and one
    that fails three times. *)
Lemma connect_retry_budget_witness :
  (∃ w1,
     connect_loop (env_connect_fails 2) no_path (Some cm_peer_a) "peer-a" 3
                  (mkConnect 0 None EmptyString) initial_world
     = (Value (mkConnect 2 (Some (ClientTo 2)) EmptyString), w1) ∧
     sleeps (1 * Minute) w1 = 2) ∧
  (∃ w',
     GenerateAdvertisement (env_connect_fails 3) 7 no_path (Some cm_peer_a)
                           "cluster-1" "1.2.3.4" "10.0.0.1" initial_world
     = (Value Returned, w') ∧
     w_connects w' = 3 ∧ w_lists w' = 0).
Proof.
  split.
  - destruct (connect_retry_budget (env_connect_fails 2) no_path "cluster-1" "1.2.3.4"
                "10.0.0.1" (Some cm_peer_a) "peer-a" initial_world eq_refl)
      as [Hsucc _].
    destruct (Hsucc "unreachable" "unreachable" (ClientTo 2) eq_refl eq_refl eq_refl)
      as (w1 & Hrun & _ & _ & Hsleeps & _).
    exists w1. split; [exact Hrun|exact Hsleeps].
  - destruct (connect_retry_budget (env_connect_fails 3) no_path "cluster-1" "1.2.3.4"
                "10.0.0.1" (Some cm_peer_a) "peer-a" initial_world eq_refl)
      as [_ Hfail].
    destruct (Hfail "unreachable" "unreachable" "unreachable"
                    eq_refl eq_refl eq_refl 7)
      as (w' & Hrun & Hc & Hl & _).
    exists w'. split; [exact Hrun|]. split; [exact Hc|exact Hl].
Defined.

(* ===================================================================== *)
(** ** The publish loop *)
(* ===================================================================== *)

Section PublishLoop.

Variable env : Env.
Variable cm : option ConfigMap.
Variables clusterId gatewayIP gatewayPrivateIP foreignClusterId : string.
Variable remoteClient : option Client.

Let loop := publish_loop env cm clusterId gatewayIP gatewayPrivateIP
                         foreignClusterId remoteClient.

(** A cycle whose node listing fails: one log line, then [return]. *)
Lemma publish_cycle_Err cycles once e w :
  env_ListNodes env (w_lists w) = Err e →
  loop (S cycles) once w
  = (Value Returned,
     add_event (LogError e "Unable to list nodes")
       (mkWorld (w_connects w) (S (w_lists w)) (w_publishes w)
                (w_clock_reads w) (w_trace w))).
Proof. intros He. unfold loop. simpl. go_unfold. simpl. by rewrite He. Qed.

(** A cycle that lists no node at all panics in [GetPodCIDR]. *)
Lemma publish_cycle_nil cycles once w :
  env_ListNodes env (w_lists w) = Ok [] →
  loop (S cycles) once w
  = (Panic "index out of range [0] with length 0",
     mkWorld (w_connects w) (S (w_lists w)) (w_publishes w)
             (w_clock_reads w) (w_trace w)).
Proof. intros He. unfold loop. simpl. go_unfold. simpl. by rewrite He. Qed.

(** A cycle that lists at least one node publishes, sleeps ten minutes
    and goes round again; the watcher starts in it exactly when the
    publish succeeds and the guard has not fired before. *)
Lemma publish_cycle_Ok cycles once node rest w :
  env_ListNodes env (w_lists w) = Ok (node :: rest) →
  ∃ adv w2,
    let ok := bool_decide (env_CreateOrUpdate env (w_publishes w) remoteClient adv = None) in
    loop (S cycles) once w = loop cycles (once || ok) w2 ∧
    w_connects w2 = w_connects w ∧
    w_lists w2 = S (w_lists w) ∧
    w_publishes w2 = S (w_publishes w) ∧
    sleeps (10 * Minute) w2 = S (sleeps (10 * Minute) w) ∧
    publish_successes w2 = publish_successes w + (if ok then 1 else 0) ∧
    watcher_starts w2 = watcher_starts w + (if ok && negb once then 1 else 0).
Proof.
  intros Hl.
  destruct (CreateAdvertisement_cons env clusterId gatewayIP gatewayPrivateIP
              node rest
              (mkWorld (w_connects w) (S (w_lists w)) (w_publishes w)
                       (w_clock_reads w) (w_trace w)))
    as (podCIDR & _ & Hadv).
  cbn [w_connects w_lists w_publishes w_clock_reads w_trace] in Hadv.
  set (adv := built clusterId gatewayIP gatewayPrivateIP (node :: rest) podCIDR
                    (env_Now env (w_clock_reads w))
                    (env_Now env (S (w_clock_reads w)))) in *.
  set (err := env_CreateOrUpdate env (w_publishes w) remoteClient adv).
  set (w0 := mkWorld (w_connects w) (S (w_lists w)) (S (w_publishes w))
                     (S (S (w_clock_reads w)))
                     (w_trace w ++ [Upserted remoteClient adv err])).
  exists adv,
    (add_event (Slept (10 * Minute))
       (match err with
        | Some e =>
            add_event (LogError e ("Unable to create advertisement on remote cluster "
                                   +:+ foreignClusterId)) w0
        | None =>
            let w1 := add_event (LogInfo ("correctly created advertisement on remote cluster "
                                          +:+ foreignClusterId)) w0 in
            if once then w1
            else add_event (WatchStarted clusterId foreignClusterId) w1
        end)).
  cbn zeta. fold err.
  assert (Hsucc : publish_successes w0
                  = publish_successes w + (if bool_decide (err = None) then 1 else 0)).
  { unfold publish_successes, w0; simpl. rewrite count_events_app.
    unfold count_events at 2; simpl. by destruct err. }
  assert (Hstart : watcher_starts w0 = watcher_starts w).
  { unfold watcher_starts, w0; simpl. rewrite count_events_app.
    unfold count_events at 2; simpl. lia. }
  assert (Hsleep : sleeps (10 * Minute) w0 = sleeps (10 * Minute) w).
  { unfold sleeps, w0; simpl. rewrite count_events_app.
    unfold count_events at 2; simpl. lia. }
  split.
  - unfold loop. cbn [publish_loop]. unfold bind at 1. unfold list_Nodes.
    rewrite Hl. unfold bind at 1. rewrite Hadv.
    unfold bind at 1. unfold pkg_CreateOrUpdate. cbn [w_publishes].
    fold err. fold w0.
    destruct err as [e|].
    + rewrite bool_decide_eq_false_2 by done. rewrite orb_false_r.
      go_unfold. reflexivity.
    + rewrite bool_decide_eq_true_2 by done. rewrite orb_true_r.
      destruct once; go_unfold; reflexivity.
  - destruct err as [e|].
    + rewrite bool_decide_eq_false_2 in * by done.
      rewrite !sleeps_add, !publish_successes_add, !watcher_starts_add.
      rewrite is_sleep_same, Hsucc, Hstart, Hsleep. simpl.
      repeat split; lia.
    + rewrite bool_decide_eq_true_2 in * by done.
      destruct once;
        rewrite !sleeps_add, !publish_successes_add, !watcher_starts_add;
        rewrite is_sleep_same, Hsucc, Hstart, Hsleep; simpl;
        repeat split; lia.
Qed.

End PublishLoop.

Section PublishLoopProperties.

Variable env : Env.
Variable cm : option ConfigMap.
Variables clusterId gatewayIP gatewayPrivateIP foreignClusterId : string.
Variable remoteClient : option Client.

Let loop := publish_loop env cm clusterId gatewayIP gatewayPrivateIP
                         foreignClusterId remoteClient.

(** After [k] cycles whose listing succeeds, a failed listing ends the
    loop: the function returns in that very cycle. *)
Lemma publish_loop_list_failure k :
  ∀ cycles once w e,
    (∀ j, j < k → ∃ node rest, env_ListNodes env (w_lists w + j) = Ok (node :: rest)) →
    env_ListNodes env (w_lists w + k) = Err e →
    k < cycles →
    ∃ w' tr,
      loop cycles once w = (Value Returned, w') ∧
      w_lists w' = w_lists w + S k ∧
      w_publishes w' = w_publishes w + k ∧
      sleeps (10 * Minute) w' = sleeps (10 * Minute) w + k ∧
      w_trace w' = tr ++ [LogError e "Unable to list nodes"].
Proof.
  induction k as [|k IH]; intros cycles once w e Hok Herr Hlt.
  - destruct cycles as [|cycles]; [lia|].
    rewrite Nat.add_0_r in Herr.
    unfold loop. erewrite publish_cycle_Err by exact Herr.
    eexists _, _. split; [reflexivity|].
    unfold sleeps, add_event; simpl. rewrite count_events_app.
    unfold count_events at 2; simpl.
    repeat split; lia || reflexivity.
  - destruct cycles as [|cycles]; [lia|].
    destruct (Hok 0) as (node & rest & Hl); [lia|]. rewrite Nat.add_0_r in Hl.
    destruct (publish_cycle_Ok env cm clusterId gatewayIP gatewayPrivateIP
                foreignClusterId remoteClient cycles once node rest w Hl)
      as (adv & w2 & Hstep & _ & Hlists & Hpub & Hsl & _).
    destruct (IH cycles
                (once || bool_decide (env_CreateOrUpdate env (w_publishes w)
                                        remoteClient adv = None))
                w2 e) as (w' & tr & Hrun & Hl' & Hp' & Hs' & Htr).
    + intros j Hj. rewrite Hlists. replace (S (w_lists w) + j) with (w_lists w + S j) by lia.
      apply Hok. lia.
    + rewrite Hlists. by replace (S (w_lists w) + k) with (w_lists w + S k) by lia.
    + lia.
    + exists w', tr. fold loop in Hstep. rewrite Hstep. split; [exact Hrun|].
      rewrite Hl', Hp', Hs', Hlists, Hpub, Hsl, Htr. repeat split; lia.
Qed.

(** The once-guard: over any run of the loop the watcher starts once if
    the guard had not fired and some publish of the run succeeded, and
    not at all otherwise. *)
Lemma publish_loop_watcher cycles :
  ∀ once w,
    let w' := (loop cycles once w).2 in
    publish_successes w ≤ publish_successes w' ∧
    watcher_starts w'
    = watcher_starts w
      + (if once then 0 else Nat.min 1 (publish_successes w' - publish_successes w)).
Proof.
  induction cycles as [|cycles IH]; intros once w; cbn zeta.
  - simpl. split; [lia|]. destruct once; [lia|]. rewrite Nat.sub_diag. simpl. lia.
  - destruct (env_ListNodes env (w_lists w)) as [[|node rest]|e] eqn:Hl.
    + unfold loop. rewrite publish_cycle_nil by exact Hl. cbn [snd].
      change (publish_successes (mkWorld _ _ _ _ (w_trace w)))
        with (publish_successes w).
      change (watcher_starts (mkWorld _ _ _ _ (w_trace w)))
        with (watcher_starts w).
      split; [lia|]. destruct once; [lia|]. rewrite Nat.sub_diag. simpl. lia.
    + destruct (publish_cycle_Ok env cm clusterId gatewayIP gatewayPrivateIP
                  foreignClusterId remoteClient cycles once node rest w Hl)
        as (adv & w2 & Hstep & _ & _ & _ & _ & Hsucc & Hstart).
      fold loop in Hstep. rewrite Hstep.
      set (ok := bool_decide (env_CreateOrUpdate env (w_publishes w)
                                                 remoteClient adv = None)) in *.
      destruct (IH (once || ok) w2) as [Hmono Hcount].
      cbn [snd]. set (w3 := (loop cycles (once || ok) w2).2) in *.
      rewrite Hsucc in Hmono, Hcount. rewrite Hstart in Hcount.
      destruct ok, once; cbn [orb andb negb] in *; split; lia.
    + unfold loop. erewrite publish_cycle_Err by exact Hl.
      cbn [snd]. rewrite publish_successes_add, watcher_starts_add. simpl.
      change (publish_successes (mkWorld _ _ _ _ (w_trace w)))
        with (publish_successes w).
      change (watcher_starts (mkWorld _ _ _ _ (w_trace w)))
        with (watcher_starts w).
      split; [lia|]. destruct once; [lia|].
      replace (publish_successes w + 0 - publish_successes w) with 0 by lia.
      simpl. lia.
Qed.

(** [n] cycles in a row that list a node and publish successfully. *)
Lemma publish_loop_successes n :
  ∀ once w,
    (∀ j, j < n → ∃ node rest, env_ListNodes env (w_lists w + j) = Ok (node :: rest)) →
    (∀ j adv, j < n → env_CreateOrUpdate env (w_publishes w + j) remoteClient adv = None) →
    ∃ w',
      loop n once w = (Value Running, w') ∧
      publish_successes w' = publish_successes w + n ∧
      sleeps (10 * Minute) w' = sleeps (10 * Minute) w + n.
Proof.
  induction n as [|n IH]; intros once w Hlist Hpub.
  - exists w. simpl. repeat split; lia || reflexivity.
  - destruct (Hlist 0) as (node & rest & Hl); [lia|]. rewrite Nat.add_0_r in Hl.
    destruct (publish_cycle_Ok env cm clusterId gatewayIP gatewayPrivateIP
                foreignClusterId remoteClient n once node rest w Hl)
      as (adv & w2 & Hstep & _ & Hlists & Hpubs & Hsl & Hsucc & _).
    fold loop in Hstep. rewrite Hstep.
    rewrite bool_decide_eq_true_2 in Hsucc
      by (specialize (Hpub 0 adv); rewrite Nat.add_0_r in Hpub; apply Hpub; lia).
    destruct (IH (once || bool_decide (env_CreateOrUpdate env (w_publishes w)
                                         remoteClient adv = None)) w2)
      as (w' & Hrun & Hs' & Hsl').
    + intros j Hj. rewrite Hlists.
      replace (S (w_lists w) + j) with (w_lists w + S j) by lia. apply Hlist. lia.
    + intros j adv' Hj. rewrite Hpubs.
      replace (S (w_publishes w) + j) with (w_publishes w + S j) by lia.
      apply Hpub. lia.
    + exists w'. split; [exact Hrun|]. rewrite Hs', Hsl', Hsucc, Hsl. lia.
Qed.

End PublishLoopProperties.

(* ===================================================================== *)
(** ** The task as a whole *)
(* ===================================================================== *)

Section Task.

Variable env : Env.
Variables foreignKubeconfigPath clusterId gatewayIP gatewayPrivateIP : string.

(** The connection loop always comes to an end, and neither publishes
    nor starts a watcher. *)
Lemma connect_loop_counts cm id remaining :
  ∀ st w, ∃ st' w1,
    connect_loop env foreignKubeconfigPath cm id remaining st w = (Value st', w1) ∧
    watcher_starts w1 = watcher_starts w ∧
    publish_successes w1 = publish_successes w.
Proof.
  induction remaining as [|remaining IH]; intros st w.
  - exists st, w. by repeat split.
  - destruct (env_NewCRDClient env (w_connects w) foreignKubeconfigPath cm)
      as [c|e] eqn:Hc.
    + erewrite connect_loop_Ok by exact Hc. eexists _, _. by repeat split.
    + erewrite connect_loop_Err by exact Hc.
      edestruct IH as (st' & w1 & -> & Hs & Hp).
      exists st', w1. split; [done|].
      rewrite Hs, Hp, !watcher_starts_add, !publish_successes_add. simpl.
      unfold watcher_starts, publish_successes; simpl. lia.
Qed.

(** [defer wg.Done()] changes neither count. *)
Lemma defer_Done_counts body w :
  watcher_starts (defer_Done body w).2 = watcher_starts (body w).2 ∧
  publish_successes (defer_Done body w).2 = publish_successes (body w).2.
Proof.
  unfold defer_Done. destruct (body w) as [[[|]|msg] w']; cbn [snd];
    rewrite ?watcher_starts_add, ?publish_successes_add; simpl; lia.
Qed.

(** Over any run of a task, the watcher starts once if some publish of
    the run succeeded, and not at all otherwise. *)
Lemma GenerateAdvertisement_watcher cycles cm w :
  let w' := (GenerateAdvertisement env cycles foreignKubeconfigPath cm
                                   clusterId gatewayIP gatewayPrivateIP w).2 in
  publish_successes w ≤ publish_successes w' ∧
  watcher_starts w'
  = watcher_starts w + Nat.min 1 (publish_successes w' - publish_successes w).
Proof.
  cbn zeta. destruct (cluster_id_suffix cm) as [id|] eqn:Hid.
  - destruct (connect_loop_counts cm id 3 (mkConnect 0 None EmptyString) w)
      as (st & w1 & Hconn & Hs1 & Hp1).
    rewrite (GenerateAdvertisement_after_connect _ _ _ _ _ _ _ _ _ _ _ Hid Hconn).
    destruct (c_retry st =? 3).
    + cbn [snd]. rewrite !watcher_starts_add, !publish_successes_add. simpl.
      rewrite Hs1, Hp1. split; [lia|].
      replace (publish_successes w + 0 + 0 - publish_successes w) with 0 by lia.
      simpl. lia.
    + match goal with
      | |- context [defer_Done ?b ?w0] =>
          destruct (defer_Done_counts b w0) as [-> ->];
          pose proof (publish_loop_watcher env cm clusterId gatewayIP
                        gatewayPrivateIP id (c_remoteClient st) cycles false w0)
            as [Hmono Hcount]
      end.
      rewrite publish_successes_add in Hmono, Hcount.
      rewrite watcher_starts_add in Hcount.
      cbn [is_watch_start is_publish_success] in Hmono, Hcount.
      rewrite Hs1 in Hcount. rewrite Hp1 in Hmono, Hcount.
      rewrite !Nat.add_0_r in Hmono. rewrite !Nat.add_0_r in Hcount.
      split; [exact Hmono|exact Hcount].
  - unfold GenerateAdvertisement, defer_Done, foreign_cluster_id.
    rewrite Hid. unfold bind, panic. cbn [snd].
    rewrite watcher_starts_add, publish_successes_add. simpl.
    split; [lia|].
    replace (publish_successes w + 0 - publish_successes w) with 0 by lia.
    simpl. lia.
Qed.

End Task.

Section FirstSuccess.

Variable env : Env.
Variable foreignKubeconfigPath : string.
Variable cm : option ConfigMap.
Variable foreignClusterId : string.

(** The connection loop when the attempts before the [f]-th fail and the
    [f]-th succeeds: it leaves with the client of that attempt, having
    slept one minute [f] times, and touches nothing else. *)
Lemma connect_loop_first_success f :
  ∀ remaining st w c,
    f < remaining →
    (∀ j, j < f → ∃ e, env_NewCRDClient env (w_connects w + j)
                                        foreignKubeconfigPath cm = Err e) →
    env_NewCRDClient env (w_connects w + f) foreignKubeconfigPath cm = Ok c →
    ∃ w1,
      connect_loop env foreignKubeconfigPath cm foreignClusterId remaining st w
      = (Value (mkConnect (c_retry st + f) (Some c) EmptyString), w1) ∧
      w_connects w1 = w_connects w + f + 1 ∧
      w_lists w1 = w_lists w ∧
      w_publishes w1 = w_publishes w ∧
      sleeps (10 * Minute) w1 = sleeps (10 * Minute) w ∧
      sleeps (1 * Minute) w1 = sleeps (1 * Minute) w + f.
Proof.
  induction f as [|f IH]; intros remaining st w c Hlt Hfail Hok.
  - destruct remaining as [|remaining]; [lia|].
    rewrite Nat.add_0_r in Hok.
    erewrite connect_loop_Ok by exact Hok.
    eexists. split; [by rewrite Nat.add_0_r|].
    cbn [w_connects w_lists w_publishes]. unfold sleeps; simpl.
    repeat split; lia.
  - destruct remaining as [|remaining]; [lia|].
    destruct (Hfail 0) as [e He]; [lia|]. rewrite Nat.add_0_r in He.
    erewrite connect_loop_Err by exact He.
    match goal with
    | |- context [connect_loop _ _ _ _ remaining ?st0 ?w0] =>
        destruct (IH remaining st0 w0 c) as (w1 & Hrun & Hc & Hl & Hp & Hs10 & Hs1)
    end.
    + lia.
    + intros j Hj. cbn [add_event w_connects].
      replace (S (w_connects w) + j) with (w_connects w + S j) by lia.
      apply Hfail. lia.
    + cbn [add_event w_connects].
      by replace (S (w_connects w) + f) with (w_connects w + S f) by lia.
    + exists w1. cbn [c_retry] in Hrun. rewrite Hrun.
      replace (S (c_retry st) + f) with (c_retry st + S f) by lia.
      split; [reflexivity|].
      rewrite Hc, Hl, Hp, Hs10, Hs1, !sleeps_add.
      cbn [add_event w_connects w_lists w_publishes].
      rewrite is_sleep_same. unfold sleeps; simpl.
      repeat split; lia.
Qed.

End FirstSuccess.

(** C1, as the code has it.  In a task whose connection is established,
    at whichever of its three attempts, if the node listing succeeds in
    the first [k] publish cycles and fails in the next one, the failure is
    logged and the task returns in that very cycle: it does not sleep
    after the failure and never lists the nodes again, however long it is
    observed.  The node-list failure ends the task. *)
Theorem list_nodes_failure_ends_task
    (env : Env) (cycles k f : nat)
    (foreignKubeconfigPath clusterId gatewayIP gatewayPrivateIP : string)
    (cm : option ConfigMap) (id e : string) (c : Client) (w : World) :
  cluster_id_suffix cm = Some id →
  f < 3 →
  (∀ j, j < f → ∃ e', env_NewCRDClient env (w_connects w + j)
                                       foreignKubeconfigPath cm = Err e') →
  env_NewCRDClient env (w_connects w + f) foreignKubeconfigPath cm = Ok c →
  (∀ j, j < k → ∃ node rest, env_ListNodes env (w_lists w + j) = Ok (node :: rest)) →
  env_ListNodes env (w_lists w + k) = Err e →
  k < cycles →
  ∃ w' tr,
    GenerateAdvertisement env cycles foreignKubeconfigPath cm
                          clusterId gatewayIP gatewayPrivateIP w
    = (Value Returned, w') ∧
    w_lists w' = w_lists w + S k ∧
    w_publishes w' = w_publishes w + k ∧
    sleeps (10 * Minute) w' = sleeps (10 * Minute) w + k ∧
    w_trace w' = tr ++ [LogError e "Unable to list nodes"; WgDone].
Proof.
  intros Hid Hf Hfail Hc Hok Herr Hlt.
  destruct (connect_loop_first_success env foreignKubeconfigPath cm id f 3
              (mkConnect 0 None EmptyString) w c Hf Hfail Hc)
    as (w1 & Hconn & _ & Hl1 & Hp1 & Hs1 & _).
  rewrite (GenerateAdvertisement_after_connect _ _ _ _ _ _ _ _ _ _ _ Hid Hconn).
  cbn [c_retry c_remoteClient Nat.add].
  replace (f =? 3) with false by (symmetry; apply Nat.eqb_neq; lia).
  set (w2 := add_event _ w1).
  assert (Hl2 : w_lists w2 = w_lists w) by exact Hl1.
  assert (Hp2 : w_publishes w2 = w_publishes w) by exact Hp1.
  assert (Hs2 : sleeps (10 * Minute) w2 = sleeps (10 * Minute) w).
  { unfold w2. rewrite sleeps_add, Hs1. simpl. lia. }
  destruct (publish_loop_list_failure env cm clusterId gatewayIP gatewayPrivateIP
              id (Some c) k cycles false w2 e)
    as (w' & tr & Hrun & Hl & Hp & Hs & Htr).
  { intros j Hj. rewrite Hl2. by apply Hok. }
  { by rewrite Hl2. }
  { exact Hlt. }
  unfold defer_Done. rewrite Hrun.
  exists (add_event WgDone w'), tr. split; [reflexivity|].
  rewrite sleeps_add. cbn [add_event w_lists w_publishes w_trace is_sleep].
  rewrite Hl, Hp, Hs, Htr, Hl2, Hp2, Hs2, <- app_assoc.
  repeat split; simpl; lia.
Qed.

(** C1, witness: the connection succeeds at the second attempt, the
    first publish cycle goes through and the second listing fails. *)
Lemma list_nodes_failure_ends_task_witness :
  ∃ w' tr,
    GenerateAdvertisement env_reconnect_list_fails 5 no_path (Some cm_peer_a)
                          "cluster-1" "1.2.3.4" "10.0.0.1" initial_world
    = (Value Returned, w') ∧
    w_lists w' = 2 ∧
    sleeps (10 * Minute) w' = 1 ∧
    w_trace w' = tr ++ [LogError "timeout" "Unable to list nodes"; WgDone].
Proof.
  destruct (list_nodes_failure_ends_task env_reconnect_list_fails 5 1 1
              no_path "cluster-1" "1.2.3.4" "10.0.0.1" (Some cm_peer_a)
              "peer-a" "timeout" (ClientTo 1) initial_world)
    as (w' & tr & Hrun & Hl & _ & Hs & Htr).
  - reflexivity.
  - lia.
  - intros j Hj. exists "unreachable". by replace j with 0 by lia.
  - reflexivity.
  - intros j Hj. exists node_10_32, []. by replace j with 0 by lia.
  - reflexivity.
  - lia.
  - exists w', tr. split; [exact Hrun|]. split; [exact Hl|].
    split; [exact Hs|exact Htr].
Defined.

(** C1, counterexample.  The first listing of the nodes fails and every
    later one would succeed; observed for five cycles, the task has
    returned after a single listing, without any ten-minute sleep and
    without a second attempt. *)
Lemma list_nodes_failure_is_fatal :
  ∃ w',
    GenerateAdvertisement env_list_fails_first 5 no_path (Some cm_peer_a)
                          "cluster-1" "1.2.3.4" "10.0.0.1" initial_world
    = (Value Returned, w') ∧
    w_lists w' = 1 ∧
    sleeps (10 * Minute) w' = 0 ∧
    w_trace w' = [LogInfo "created client to remote cluster peer-a";
                  LogError "timeout" "Unable to list nodes";
                  WgDone].
Proof. eexists. split; [reflexivity|]. by repeat split. Qed.

(** C9.  Over any run of a per-peer task, from any world, the watcher is
    started exactly once if at least one publish of that run succeeded
    and not at all otherwise; this holds again for a second task run
    after the first, so each task has a guard of its own.  In
    particular, in a task whose connection is established and whose [n]
    publish cycles all succeed, there are [n] successful publishes and
    exactly one watcher start. *)
Theorem watcher_started_exactly_once
    (env : Env) (n : nat)
    (foreignKubeconfigPath clusterId gatewayIP gatewayPrivateIP : string)
    (cm : option ConfigMap) (w : World) :
  let run cm0 cycles w0 :=
    (GenerateAdvertisement env cycles foreignKubeconfigPath cm0
                           clusterId gatewayIP gatewayPrivateIP w0).2 in
  (∀ cycles,
      watcher_starts (run cm cycles w)
      = watcher_starts w
        + Nat.min 1 (publish_successes (run cm cycles w) - publish_successes w)) ∧
  (∀ cm2 cycles cycles2,
      let wA := run cm cycles w in
      let wB := run cm2 cycles2 wA in
      watcher_starts wB
      = watcher_starts w
        + Nat.min 1 (publish_successes wA - publish_successes w)
        + Nat.min 1 (publish_successes wB - publish_successes wA)) ∧
  (∀ id c,
      0 < n →
      cluster_id_suffix cm = Some id →
      env_NewCRDClient env (w_connects w) foreignKubeconfigPath cm = Ok c →
      (∀ j, j < n → ∃ node rest, env_ListNodes env (w_lists w + j) = Ok (node :: rest)) →
      (∀ j adv, j < n → env_CreateOrUpdate env (w_publishes w + j) (Some c) adv = None) →
      publish_successes (run cm n w) = publish_successes w + n ∧
      watcher_starts (run cm n w) = watcher_starts w + 1).
Proof.
  cbn zeta. split; [|split].
  - intros cycles.
    apply (GenerateAdvertisement_watcher env foreignKubeconfigPath clusterId
             gatewayIP gatewayPrivateIP cycles cm w).
  - intros cm2 cycles cycles2.
    destruct (GenerateAdvertisement_watcher env foreignKubeconfigPath clusterId
                gatewayIP gatewayPrivateIP cycles cm w) as [_ HA].
    destruct (GenerateAdvertisement_watcher env foreignKubeconfigPath clusterId
                gatewayIP gatewayPrivateIP cycles2 cm2
                (GenerateAdvertisement env cycles foreignKubeconfigPath cm
                   clusterId gatewayIP gatewayPrivateIP w).2) as [_ HB].
    rewrite HB, HA. reflexivity.
  - intros id c Hn Hid Hc Hlist Hpub.
    destruct (GenerateAdvertisement_watcher env foreignKubeconfigPath clusterId
                gatewayIP gatewayPrivateIP n cm w) as [_ Hcount].
    assert (Hsucc : publish_successes
                      (GenerateAdvertisement env n foreignKubeconfigPath cm
                         clusterId gatewayIP gatewayPrivateIP w).2
                    = publish_successes w + n).
    { erewrite GenerateAdvertisement_after_connect;
        [|exact Hid|erewrite connect_loop_Ok by exact Hc; reflexivity].
      cbn [c_retry c_remoteClient Nat.eqb].
      set (w1 := add_event _ _).
      destruct (publish_loop_successes env cm clusterId gatewayIP gatewayPrivateIP
                  id (Some c) n false w1) as (w' & Hrun & Hs & _);
        [exact Hlist|exact Hpub|].
      unfold defer_Done. rewrite Hrun. cbn [snd]. rewrite Hs.
      unfold w1. rewrite publish_successes_add. simpl.
      unfold publish_successes; simpl. lia. }
    split; [exact Hsucc|]. rewrite Hcount, Hsucc. lia.
Qed.

(** C9, witness: three successful publish cycles to one peer. *)
Lemma watcher_started_exactly_once_witness :
  publish_successes
    (GenerateAdvertisement env_all_good 3 no_path (Some cm_peer_a)
                           "cluster-1" "1.2.3.4" "10.0.0.1" initial_world).2 = 3 ∧
  watcher_starts
    (GenerateAdvertisement env_all_good 3 no_path (Some cm_peer_a)
                           "cluster-1" "1.2.3.4" "10.0.0.1" initial_world).2 = 1.
Proof.
  destruct (watcher_started_exactly_once env_all_good 3 no_path "cluster-1" "1.2.3.4"
              "10.0.0.1" (Some cm_peer_a) initial_world) as (_ & _ & Hn).
  apply (Hn "peer-a" (ClientTo 0)).
  - lia.
  - reflexivity.
  - reflexivity.
  - intros j Hj. by exists node_10_32, [].
  - intros j adv Hj. reflexivity.
Defined.

(** C3, the code at the failing input.  A record named by the bare
    prefix [foreign-kubeconfig] passes the filter of [StartBroadcaster],
    and its task panics on the slice [cm.Name[19:]] before any
    connection attempt, whatever the environment; the panic of that
    goroutine ends the run of all tasks. *)
Theorem bare_prefix_record_panics
    (env : Env) (cycles : nat)
    (clusterId foreignKubeconfig gatewayIP gatewayPrivateIP : string)
    (data : list (string * string)) (w : World) :
  let cm := mkConfigMap "foreign-kubeconfig" data in
  GoStrings.HasPrefix (cm_Name cm) "foreign-kubeconfig" = true ∧
  selected [cm] = [cm] ∧
  cluster_id_suffix (Some cm) = None ∧
  GenerateAdvertisement env cycles foreignKubeconfig (Some cm)
                        clusterId gatewayIP gatewayPrivateIP w
  = (Panic "slice bounds out of range", add_event WgDone w) ∧
  (∀ items,
      run_tasks env cycles clusterId foreignKubeconfig gatewayIP gatewayPrivateIP
                (cm :: items) Returned w
      = (Panic "slice bounds out of range", add_event WgDone (add_event WgAdd w))).
Proof.
  cbn zeta. repeat split; reflexivity.
Qed.

(** C3, the whole broadcaster on a discovery that holds a well-formed
    record and the bare-prefix record: the first peer's task runs, then
    the process panics. *)
Example StartBroadcaster_bare_prefix_crashes :
  (StartBroadcaster env_bare_prefix 2 "cluster-1" no_path no_path "1.2.3.4" "10.0.0.1"
                    initial_world).1
  = Panic "slice bounds out of range".
Proof. vm_compute. reflexivity. Qed.

(** Two well-formed peers, each observed for three cycles: six successful
    publishes, and one watcher per peer. *)
Example StartBroadcaster_two_peers :
  let r := StartBroadcaster env_all_good 3 "cluster-1" no_path no_path
                            "1.2.3.4" "10.0.0.1" initial_world in
  r.1 = Value Running ∧
  publish_successes r.2 = 6 ∧
  watcher_starts r.2 = 2 ∧
  List.filter is_watch_start (w_trace r.2)
  = [WatchStarted "cluster-1" "peer-a"; WatchStarted "cluster-1" "peer-b"].
Proof. vm_compute. repeat split; reflexivity. Qed.

(* ===================================================================== *)
(** ** More on [ComputePrices] *)
(* ===================================================================== *)

Section PriceLookup.

Lemma price_names_lookup names (prices : ResourceList) (k : string) :
  price_names prices names !! k
  = if bool_decide (k ∈ names) then Some image_price else prices !! k.
Proof.
  unfold price_names. revert prices.
  induction names as [|name names IH]; intros prices; cbn [foldl].
  - rewrite bool_decide_eq_false_2; [done|]. apply not_elem_of_nil.
  - rewrite IH. destruct (decide (k ∈ names)) as [Hin|Hnin].
    + rewrite !bool_decide_eq_true_2; [done| |done]. by right.
    + rewrite (bool_decide_eq_false_2 (k ∈ names)) by done.
      destruct (decide (k = name)) as [->|Hne].
      * rewrite lookup_insert_eq, bool_decide_eq_true_2; [done|]. by left.
      * rewrite lookup_insert_ne by done.
        rewrite bool_decide_eq_false_2; [done|].
        intros [?|?]%elem_of_cons; done.
Qed.

Lemma price_images_lookup images (prices : ResourceList) (k : string) :
  foldl (fun p image => price_names p (Names image)) prices images !! k
  = if bool_decide (k ∈ image_names images) then Some image_price
    else prices !! k.
Proof.
  revert prices. induction images as [|image images IH]; intros prices; cbn [foldl].
  - rewrite bool_decide_eq_false_2; [done|]. apply not_elem_of_nil.
  - rewrite IH, price_names_lookup.
    change (image_names (image :: images)) with (Names image ++ image_names images).
    destruct (decide (k ∈ image_names images)) as [Hin|Hnin].
    + rewrite !bool_decide_eq_true_2; [done| |done].
      apply elem_of_app. by right.
    + rewrite (bool_decide_eq_false_2 (k ∈ image_names images)) by done.
      destruct (decide (k ∈ Names image)) as [Hin'|Hnin'].
      * rewrite !bool_decide_eq_true_2; [done| |done].
        apply elem_of_app. by left.
      * rewrite !bool_decide_eq_false_2; [done| |done].
        intros [?|?]%elem_of_app; done.
Qed.
End PriceLookup.

(** X1.  The price of a key in the list [ComputePrices] returns: 5 units
    if the key is the name of an image, otherwise 2Gi for memory and 1
    unit for CPU, and nothing for any other key.  An image whose name is
    [cpu] or [memory] therefore replaces the price of that resource. *)
Theorem ComputePrices_lookup (images : list ContainerImage) (k : string) :
  ComputePrices images !! k
  = if bool_decide (k ∈ image_names images) then Some image_price
    else if bool_decide (k = ResourceMemory) then Some Resource.MustParse_2Gi
    else if bool_decide (k = ResourceCPU)
         then Some (Resource.NewQuantity 1 Resource.DecimalSI)
         else None.
Proof.
  unfold ComputePrices. rewrite price_images_lookup.
  destruct (bool_decide (k ∈ image_names images)); [done|].
  destruct (decide (k = ResourceMemory)) as [->|Hm].
  - by rewrite lookup_insert_eq, bool_decide_eq_true_2.
  - rewrite lookup_insert_ne, (bool_decide_eq_false_2 (k = ResourceMemory)) by done.
    destruct (decide (k = ResourceCPU)) as [->|Hc].
    + by rewrite lookup_insert_eq, bool_decide_eq_true_2.
    + by rewrite lookup_insert_ne, lookup_empty, bool_decide_eq_false_2.
Qed.

(** X2.  The price list depends only on the set of image names: two image
    lists with the same names, in any order and with any repetition,
    get the same price list. *)
Theorem ComputePrices_same_names (images1 images2 : list ContainerImage) :
  (∀ name, name ∈ image_names images1 ↔ name ∈ image_names images2) →
  ComputePrices images1 = ComputePrices images2.
Proof.
  intros Hsame. apply map_eq. intros k.
  unfold ComputePrices. rewrite !price_images_lookup.
  destruct (decide (k ∈ image_names images1)) as [Hin|Hnin].
  - rewrite !bool_decide_eq_true_2; [done| |done]. by apply Hsame.
  - rewrite !(bool_decide_eq_false_2 (k ∈ _)); [done| |done].
    intros Hin. by apply Hnin, Hsame.
Qed.

(** X2, witness: the image list of two nodes that report the same image,
    and the list of one of them. *)
Lemma ComputePrices_same_names_witness :
  ComputePrices (GetClusterResources two_nodes_same_image).2
  = ComputePrices [image_app_v1].
Proof.
  apply (ComputePrices_same_names
           (GetClusterResources two_nodes_same_image).2 [image_app_v1]).
  intros name. change (name ∈ ["app:v1"; "app:v1"] ↔ name ∈ ["app:v1"]).
  rewrite !elem_of_cons. rewrite elem_of_nil. tauto.
Defined.

(* ===================================================================== *)
(** ** More on [GetClusterResources] *)
(* ===================================================================== *)

Section AggregationMore.

Lemma exact_sum_app pick nodes1 nodes2 :
  exact_sum pick (nodes1 ++ nodes2)
  = (exact_sum pick nodes1 + exact_sum pick nodes2)%Z.
Proof.
  induction nodes1 as [|node nodes1 IH]; simpl; [lia|]. rewrite IH. lia.
Qed.

Lemma exact_sum_Permutation pick nodes1 nodes2 :
  nodes1 ≡ₚ nodes2 → exact_sum pick nodes1 = exact_sum pick nodes2.
Proof.
  induction 1 as [|node l1 l2 _ IH|n1 n2 l|l1 l2 l3 _ IH1 _ IH2]; simpl; lia.
Qed.

Lemma exact_sum_nonneg pick nodes :
  Forall (fun node => (0 ≤ nano (pick (Status_Allocatable node)))%Z) nodes →
  (0 ≤ exact_sum pick nodes)%Z.
Proof. induction 1; simpl; lia. Qed.

(** The amounts of the snapshot, key by key. *)
Lemma GetClusterResources_amount nodes k :
  amount_of (GetClusterResources nodes).1 k
  = if bool_decide (k = ResourcePods) then exact_sum Pods nodes
    else if bool_decide (k = ResourceMemory) then exact_sum Memory nodes
    else if bool_decide (k = ResourceCPU) then exact_sum Cpu nodes
    else 0%Z.
Proof.
  destruct (foldl_add_node nodes
              (mkTotals Resource.zero Resource.zero Resource.zero []))
    as (Hc & Hr & Hp & _).
  simpl in Hc, Hr, Hp.
  unfold amount_of, GetClusterResources; cbn [fst].
  destruct (decide (k = ResourcePods)) as [->|Hkp].
  { by rewrite lookup_insert_eq, bool_decide_eq_true_2. }
  rewrite lookup_insert_ne, (bool_decide_eq_false_2 (k = ResourcePods)) by done.
  destruct (decide (k = ResourceMemory)) as [->|Hkm].
  { by rewrite lookup_insert_eq, bool_decide_eq_true_2. }
  rewrite lookup_insert_ne, (bool_decide_eq_false_2 (k = ResourceMemory)) by done.
  destruct (decide (k = ResourceCPU)) as [->|Hkc].
  { by rewrite lookup_insert_eq, bool_decide_eq_true_2. }
  by rewrite lookup_insert_ne, lookup_empty, bool_decide_eq_false_2.
Qed.

End AggregationMore.

(** X3.  Aggregating a concatenation of two node lists adds the amounts
    of the two snapshots key by key and appends the two image lists. *)
Theorem GetClusterResources_app (nodes1 nodes2 : list Node) :
  (∀ k, amount_of (GetClusterResources (nodes1 ++ nodes2)).1 k
        = (amount_of (GetClusterResources nodes1).1 k
           + amount_of (GetClusterResources nodes2).1 k)%Z) ∧
  (GetClusterResources (nodes1 ++ nodes2)).2
  = (GetClusterResources nodes1).2 ++ (GetClusterResources nodes2).2.
Proof.
  split.
  - intros k. rewrite !GetClusterResources_amount, !exact_sum_app.
    repeat case_bool_decide; lia.
  - rewrite !GetClusterResources_images. unfold reported_images.
    by rewrite fmap_app, concat_app.
Qed.

(** X4.  The amounts of the snapshot do not depend on the order in which
    the nodes are listed, and the image list is permuted with them. *)
Theorem GetClusterResources_Permutation (nodes1 nodes2 : list Node) :
  nodes1 ≡ₚ nodes2 →
  (∀ k, amount_of (GetClusterResources nodes1).1 k
        = amount_of (GetClusterResources nodes2).1 k) ∧
  (GetClusterResources nodes1).2 ≡ₚ (GetClusterResources nodes2).2.
Proof.
  intros Hperm. split.
  - intros k. rewrite !GetClusterResources_amount.
    by rewrite !(exact_sum_Permutation _ nodes1 nodes2 Hperm).
  - rewrite !GetClusterResources_images. unfold reported_images.
    induction Hperm as [|node l1 l2 _ IH|n1 n2 l|l1 l2 l3 _ IH1 _ IH2]; simpl.
    + done.
    + by rewrite IH.
    + rewrite !app_assoc. f_equiv. apply Permutation_app_comm.
    + by rewrite IH1.
Qed.

(** X4, witness: two nodes listed in either order. *)
Lemma GetClusterResources_Permutation_witness :
  amount_of (GetClusterResources [node_10_32; node_no_dot]).1 ResourceCPU
  = amount_of (GetClusterResources [node_no_dot; node_10_32]).1 ResourceCPU ∧
  (GetClusterResources [node_10_32; node_no_dot]).2
  ≡ₚ (GetClusterResources [node_no_dot; node_10_32]).2.
Proof.
  destruct (GetClusterResources_Permutation [node_10_32; node_no_dot]
                                            [node_no_dot; node_10_32])
    as [Hamounts Himages]; [apply Permutation_swap|].
  split; [apply Hamounts|exact Himages].
Defined.

(** X5.  If no node reports a negative allocatable CPU, memory or pod
    quantity, no entry of the snapshot is negative.  (The code itself
    never clamps: the hypothesis is needed.) *)
Theorem GetClusterResources_nonneg (nodes : list Node) :
  Forall (fun node =>
            (0 ≤ nano (Cpu (Status_Allocatable node)))%Z ∧
            (0 ≤ nano (Memory (Status_Allocatable node)))%Z ∧
            (0 ≤ nano (Pods (Status_Allocatable node)))%Z) nodes →
  ∀ k q, (GetClusterResources nodes).1 !! k = Some q → (0 ≤ nano q)%Z.
Proof.
  intros Hall k q Hq.
  pose proof (GetClusterResources_amount nodes k) as Ha.
  unfold amount_of in Ha. rewrite Hq in Ha. rewrite Ha.
  repeat case_bool_decide; try lia.
  - apply exact_sum_nonneg. eapply Forall_impl; [exact Hall|]. naive_solver.
  - apply exact_sum_nonneg. eapply Forall_impl; [exact Hall|]. naive_solver.
  - apply exact_sum_nonneg. eapply Forall_impl; [exact Hall|]. naive_solver.
Qed.

(** X5, witness: the node of the end-to-end scenario. *)
Lemma GetClusterResources_nonneg_witness :
  ∃ q, (GetClusterResources [node_10_32]).1 !! ResourceCPU = Some q ∧ (0 ≤ nano q)%Z.
Proof.
  eexists. split; [reflexivity|].
  apply (GetClusterResources_nonneg [node_10_32]) with (k := ResourceCPU).
  - constructor; [|constructor]. vm_compute. repeat split; discriminate.
  - reflexivity.
Defined.

(* ===================================================================== *)
(** ** More on [GetPodCIDR] and [GetGateway] *)
(* ===================================================================== *)

Section SplitMore.

Variable sep : ascii.

Lemma Split_no_sep a :
  GoStrings.Count a sep = 0 → GoStrings.Split a sep = [a].
Proof.
  induction a as [|c a IH]; simpl; [done|].
  destruct (Ascii.eqb c sep); simpl; [done|].
  intros Hc. by rewrite IH.
Qed.

Lemma Split_app_sep a s :
  GoStrings.Count a sep = 0 →
  GoStrings.Split (a +:+ String sep s) sep = a :: GoStrings.Split s sep.
Proof.
  induction a as [|c a IH]; simpl.
  - intros _. by rewrite Ascii.eqb_refl.
  - destruct (Ascii.eqb c sep); simpl; [done|].
    intros Hc. by rewrite IH.
Qed.

End SplitMore.

(** X6.  When the pod CIDR of the first node starts with two dot-free
    pieces [a.b], alone or followed by a dot and anything, [GetPodCIDR]
    returns [a.b.0.0/16] whatever the other nodes are; the pieces are not
    checked to be numbers. *)
Theorem GetPodCIDR_two_pieces (node : Node) (rest : list Node) (a b : string) :
  GoStrings.Count a "." = 0 →
  GoStrings.Count b "." = 0 →
  (Spec_PodCIDR node = a +:+ String "." b ∨
   ∃ more, Spec_PodCIDR node = a +:+ String "." (b +:+ String "." more)) →
  GetPodCIDR (node :: rest) = Some (a +:+ String "." (b +:+ ".0.0/16")).
Proof.
  intros Ha Hb Hcidr. unfold GetPodCIDR. cbn [lookup list_lookup].
  destruct Hcidr as [->|[more ->]].
  - rewrite Split_app_sep by done. rewrite Split_no_sep by done. reflexivity.
  - rewrite Split_app_sep by done. rewrite Split_app_sep by done.
    pose proof (Split_length "." more) as Hlen.
    destruct (GoStrings.Split more ".") as [|tok toks]; [done|]. reflexivity.
Qed.

(** X6, witness: an IPv4 block, and a block with one dot only. *)
Lemma GetPodCIDR_two_pieces_witness :
  GetPodCIDR [mkNode "n" "192.168.7.0/24" ∅ []; node_no_dot] = Some "192.168.0.0/16" ∧
  GetPodCIDR [mkNode "n" "10.x" ∅ []] = Some "10.x.0.0/16".
Proof.
  split.
  - apply (GetPodCIDR_two_pieces (mkNode "n" "192.168.7.0/24" ∅ []) [node_no_dot]
                                 "192" "168"); [reflexivity|reflexivity|].
    right. by exists "7.0/24".
  - apply (GetPodCIDR_two_pieces (mkNode "n" "10.x" ∅ []) [] "10" "x");
      [reflexivity|reflexivity|]. by left.
Defined.

(** X7.  [GetGateway] returns the address of the first entry of the first
    node, and it returns at all only if there is a first node and that
    node has a first address: otherwise one of its two index expressions
    panics. *)
Theorem GetGateway_first_address (nodes : list AddressedNode) (address : string) :
  GetGateway nodes = Some address ↔
  ∃ node rest addr addrs,
    nodes = node :: rest ∧
    Status_Addresses node = addr :: addrs ∧
    Address addr = address.
Proof.
  unfold GetGateway. split.
  - destruct nodes as [|node rest]; [done|]. cbn [lookup list_lookup].
    destruct (Status_Addresses node) as [|addr addrs] eqn:Ha; [done|].
    cbn [lookup list_lookup]. intros [= <-]. by exists node, rest, addr, addrs.
  - intros (node & rest & addr & addrs & -> & Ha & <-).
    cbn [lookup list_lookup]. by rewrite Ha.
Qed.

(** X7, witness: a node with two addresses. *)
Lemma GetGateway_first_address_witness :
  GetGateway [mkAddressedNode node_10_32
                [mkNodeAddress "ExternalIP" "203.0.113.7";
                 mkNodeAddress "InternalIP" "10.0.0.7"];
              mkAddressedNode node_no_dot []]
  = Some "203.0.113.7".
Proof.
  apply (proj2 (GetGateway_first_address _ "203.0.113.7")).
  eexists _, _, _, _. repeat split; reflexivity.
Defined.

Example GetGateway_no_address :
  GetGateway [mkAddressedNode node_10_32 []] = None ∧ GetGateway [] = None.
Proof. split; reflexivity. Qed.

(* ===================================================================== *)
(** ** The peer identifier *)
(* ===================================================================== *)

Section PeerIdentifier.

Lemma HasPrefix_app s prefix :
  GoStrings.HasPrefix s prefix = true ↔ ∃ t, s = prefix +:+ t.
Proof.
  revert s. induction prefix as [|p prefix IH]; intros s; simpl.
  - split; [intros _; by exists s|intros _; by destruct s].
  - destruct s as [|c s].
    + split; [discriminate|]. intros [t Ht]. discriminate Ht.
    + simpl. destruct (Ascii.eqb_spec p c) as [->|Hne].
      * rewrite IH. split.
        -- intros [t ->]. by exists t.
        -- intros [t [= ->]]. by exists t.
      * split; [discriminate|]. intros [t [= ? ?]]. done.
Qed.

End PeerIdentifier.

(** X8.  For a record that passes the filter of [StartBroadcaster] (its
    name starts with [foreign-kubeconfig]), the extraction of the peer
    identifier panics exactly when the name is the bare prefix; for any
    longer name the identifier is what follows the 19th byte, and that
    byte is not checked to be a dash. *)
Theorem cluster_id_suffix_of_selected (cm : ConfigMap) :
  GoStrings.HasPrefix (cm_Name cm) "foreign-kubeconfig" = true →
  (cluster_id_suffix (Some cm) = None ↔ cm_Name cm = "foreign-kubeconfig") ∧
  (∀ c id, cm_Name cm = "foreign-kubeconfig" +:+ String c id →
           cluster_id_suffix (Some cm) = Some id).
Proof.
  intros [t Ht]%HasPrefix_app. unfold cluster_id_suffix. rewrite Ht. split.
  - destruct t as [|c t].
    + split; [done|reflexivity].
    + split; [discriminate|]. intros [= ].
  - intros c id Heq.
    assert (t = String c id) as -> by (cbv [String.append] in Heq; congruence).
    reflexivity.
Qed.

(** X8, witness: a well-formed record, and one whose 19th byte is not a
    dash. *)
Lemma cluster_id_suffix_of_selected_witness :
  cluster_id_suffix (Some cm_peer_a) = Some "peer-a" ∧
  cluster_id_suffix (Some (mkConfigMap "foreign-kubeconfigs-old" [])) = Some "-old" ∧
  (cluster_id_suffix (Some cm_bare_prefix) = None ↔
   cm_Name cm_bare_prefix = "foreign-kubeconfig").
Proof.
  split; [|split].
  - apply (proj2 (cluster_id_suffix_of_selected cm_peer_a eq_refl)
                 "-"%char "peer-a").
    reflexivity.
  - apply (proj2 (cluster_id_suffix_of_selected
                    (mkConfigMap "foreign-kubeconfigs-old" []) eq_refl)
                 "s"%char "-old").
    reflexivity.
  - apply (proj1 (cluster_id_suffix_of_selected cm_bare_prefix eq_refl)).
Defined.

(* ===================================================================== *)
(** ** [getPodsTotalRequestsAndLimits] *)
(* ===================================================================== *)

Section PodTotals.

(** One pod's map merged into the totals, key by key: the result does not
    depend on the order in which the keys are visited. *)
Lemma add_pod_values_lookup (totals podValues : ResourceList) (k : string) :
  add_pod_values totals podValues !! k
  = union_with (fun total value => Some (Resource.Add total value))
               (totals !! k) (podValues !! k).
Proof.
  unfold add_pod_values.
  apply (map_fold_weak_ind
           (fun (r : ResourceList) (m : ResourceList) =>
              r !! k = union_with (fun total value => Some (Resource.Add total value))
                                  (totals !! k) (m !! k))).
  - rewrite lookup_empty. by destruct (totals !! k).
  - intros i x m r Hi IH. unfold add_to_total.
    destruct (decide (k = i)) as [->|Hne].
    + rewrite Hi in IH. rewrite lookup_insert_eq.
      destruct (r !! i) as [total|] eqn:Hr; rewrite lookup_insert_eq;
        destruct (totals !! i); simpl in *; congruence.
    + rewrite (lookup_insert_ne m) by done. rewrite <- IH.
      destruct (r !! i); by rewrite lookup_insert_ne.
Qed.

Lemma add_pod_values_amount (totals podValues : ResourceList) (k : string) :
  amount_of (add_pod_values totals podValues) k
  = (amount_of totals k + amount_of podValues k)%Z.
Proof.
  unfold amount_of. rewrite add_pod_values_lookup.
  destruct (totals !! k), (podValues !! k); simpl; lia.
Qed.

Lemma add_pod_values_dom (totals podValues : ResourceList) :
  dom (add_pod_values totals podValues) = dom totals ∪ dom podValues.
Proof.
  apply set_eq. intros k. rewrite elem_of_union, !elem_of_dom.
  rewrite add_pod_values_lookup.
  destruct (totals !! k), (podValues !! k); simpl;
    rewrite ?is_Some_alt; naive_solver.
Qed.

Context {Pod : Type} (PodRequestsAndLimits : Pod -> ResourceList * ResourceList).

Let step (acc : ResourceList * ResourceList) (pod : Pod) :=
  (add_pod_values acc.1 (PodRequestsAndLimits pod).1,
   add_pod_values acc.2 (PodRequestsAndLimits pod).2).

Lemma foldl_pod_totals items :
  ∀ acc k,
    amount_of (foldl step acc items).1 k
    = (amount_of acc.1 k + total_amount (fst ∘ PodRequestsAndLimits) items k)%Z ∧
    amount_of (foldl step acc items).2 k
    = (amount_of acc.2 k + total_amount (snd ∘ PodRequestsAndLimits) items k)%Z ∧
    (k ∈ dom (foldl step acc items).1 ↔
     k ∈ dom acc.1 ∨ ∃ pod, pod ∈ items ∧ k ∈ dom (PodRequestsAndLimits pod).1) ∧
    (k ∈ dom (foldl step acc items).2 ↔
     k ∈ dom acc.2 ∨ ∃ pod, pod ∈ items ∧ k ∈ dom (PodRequestsAndLimits pod).2).
Proof.
  induction items as [|pod items IH]; intros acc k; cbn [foldl total_amount foldr].
  - repeat split; try lia; try (by left).
    + intros [?|(? & ?%elem_of_nil & _)]; done.
    + intros [?|(? & ?%elem_of_nil & _)]; done.
  - destruct (IH (step acc pod) k) as (H1 & H2 & H3 & H4).
    rewrite H1, H2, H3, H4. unfold step at 1 2 3 4. cbn [fst snd].
    rewrite !add_pod_values_amount, !add_pod_values_dom, !elem_of_union.
    unfold total_amount, compose. cbn [foldr]. repeat split; try lia.
    + intros [[?|?]|(pod' & ? & ?)]; [by left| |].
      * right. exists pod. split; [by left|done].
      * right. exists pod'. split; [by right|done].
    + intros [?|(pod' & [->|?]%elem_of_cons & ?)]; [by left; left| |].
      * by left; right.
      * right. by exists pod'.
    + intros [[?|?]|(pod' & ? & ?)]; [by left| |].
      * right. exists pod. split; [by left|done].
      * right. exists pod'. split; [by right|done].
    + intros [?|(pod' & [->|?]%elem_of_cons & ?)]; [by left; left| |].
      * by left; right.
      * right. by exists pod'.
Qed.

End PodTotals.

(** X9.  [getPodsTotalRequestsAndLimits] on a pod list returns two maps:
    for every resource name the amount in the first is the exact sum of
    the pods' requests for that name and the amount in the second the
    exact sum of their limits; a name is a key of a map exactly when some
    pod has it in the corresponding map.  A nil pod list panics. *)
Theorem getPodsTotalRequestsAndLimits_sums {Pod : Type}
    (PodRequestsAndLimits : Pod -> ResourceList * ResourceList)
    (items : list Pod) :
  getPodsTotalRequestsAndLimits PodRequestsAndLimits None = None ∧
  ∃ reqs limits,
    getPodsTotalRequestsAndLimits PodRequestsAndLimits (Some items)
    = Some (reqs, limits) ∧
    (∀ k, amount_of reqs k = total_amount (fst ∘ PodRequestsAndLimits) items k) ∧
    (∀ k, amount_of limits k = total_amount (snd ∘ PodRequestsAndLimits) items k) ∧
    (∀ k, k ∈ dom reqs ↔ ∃ pod, pod ∈ items ∧ k ∈ dom (PodRequestsAndLimits pod).1) ∧
    (∀ k, k ∈ dom limits ↔ ∃ pod, pod ∈ items ∧ k ∈ dom (PodRequestsAndLimits pod).2).
Proof.
  split; [reflexivity|].
  unfold getPodsTotalRequestsAndLimits.
  match goal with
  | |- context [foldl ?f ?a items] => set (r := foldl f a items)
  end.
  exists r.1, r.2. split; [by destruct r|].
  assert (Hall : ∀ k,
             amount_of r.1 k = total_amount (fst ∘ PodRequestsAndLimits) items k ∧
             amount_of r.2 k = total_amount (snd ∘ PodRequestsAndLimits) items k ∧
             (k ∈ dom r.1 ↔ ∃ pod, pod ∈ items ∧ k ∈ dom (PodRequestsAndLimits pod).1) ∧
             (k ∈ dom r.2 ↔ ∃ pod, pod ∈ items ∧ k ∈ dom (PodRequestsAndLimits pod).2)).
  { intros k.
    destruct (foldl_pod_totals PodRequestsAndLimits items (∅, ∅) k)
      as (H1 & H2 & H3 & H4).
    cbn [fst snd] in H1, H2, H3, H4. fold r in H1, H2, H3, H4.
    unfold amount_of at 2 in H1. unfold amount_of at 2 in H2.
    rewrite lookup_empty in H1, H2. rewrite dom_empty_L in H3, H4.
    rewrite H1, H2, H3, H4. repeat split; try lia; set_solver. }
  split; [|split; [|split]]; intros k; apply Hall.
Qed.

Example getPodsTotalRequestsAndLimits_two_pods :
  ∃ reqs limits,
    getPodsTotalRequestsAndLimits pod_totals (Some [pod_small; pod_large])
    = Some (reqs, limits) ∧
    reqs !! ResourceCPU = Some (mkQuantity (2250 * 10 ^ 6) Resource.DecimalSI) ∧
    reqs !! ResourceMemory = Some (mkQuantity (2 ^ 30 * 10 ^ 9) Resource.BinarySI) ∧
    limits !! ResourceCPU = None.
Proof. eexists _, _. split; [reflexivity|]. repeat split; vm_compute; reflexivity. Qed.

(* ===================================================================== *)
(** ** [getK8sVersion] *)
(* ===================================================================== *)

Section KubeconfigArgument.

(** The index loop of the source visits the arguments from index [i] on
    as the recursion on the rest of the list does. *)
Lemma scan_kubeconfig_rest args :
  ∀ remaining i configPath,
    i + remaining = length args →
    scan_kubeconfig args i remaining configPath = scan_rest (drop i args) configPath.
Proof.
  induction remaining as [|remaining IH]; intros i configPath Hlen; simpl.
  - rewrite drop_ge by lia. reflexivity.
  - destruct (lookup_lt_is_Some_2 args i) as [arg Harg]; [lia|].
    rewrite Harg, (drop_S _ _ _ Harg). cbn [scan_rest].
    destruct (String.eqb arg "--kubeconfig").
    + pose proof (lookup_drop args (S i) 0) as Hnext.
      rewrite Nat.add_0_r in Hnext. rewrite <- Hnext.
      destruct (drop (S i) args) as [|next rest] eqn:Hdrop; [done|].
      cbn [lookup list_lookup]. rewrite <- Hdrop. apply IH. lia.
    + apply IH. lia.
Qed.

Lemma kubeconfig_path_rest args defaultConfigPath :
  kubeconfig_path args defaultConfigPath
  = match scan_rest (tail args) EmptyString with
    | None => None
    | Some configPath =>
        Some (if String.eqb configPath EmptyString then defaultConfigPath
              else configPath)
    end.
Proof.
  unfold kubeconfig_path. destruct args as [|prog rest]; [reflexivity|].
  rewrite scan_kubeconfig_rest by (simpl; lia). reflexivity.
Qed.

(** The scan panics exactly when the flag is the last argument. *)
Lemma scan_rest_None rest :
  ∀ configPath,
    scan_rest rest configPath = None ↔ last rest = Some "--kubeconfig".
Proof.
  induction rest as [|arg rest IH]; intros configPath; [done|].
  cbn [scan_rest]. destruct (String.eqb_spec arg "--kubeconfig") as [->|Hne].
  - destruct rest as [|next rest]; [done|].
    rewrite last_cons_cons. apply IH.
  - destruct rest as [|next rest].
    + simpl. split; [done|]. intros [= ?]. done.
    + rewrite last_cons_cons. apply IH.
Qed.

Lemma scan_rest_no_flag rest :
  ∀ configPath, "--kubeconfig" ∉ rest → scan_rest rest configPath = Some configPath.
Proof.
  induction rest as [|arg rest IH]; intros configPath Hnin; [done|].
  cbn [scan_rest]. apply not_elem_of_cons in Hnin as [Hne Hnin].
  destruct (String.eqb_spec arg "--kubeconfig") as [->|_]; [done|]. by apply IH.
Qed.

(** The value that follows the last occurrence of the flag wins. *)
Lemma scan_rest_last_flag before value after :
  "--kubeconfig" ∉ value :: after →
  ∀ configPath,
    scan_rest (before ++ "--kubeconfig" :: value :: after) configPath = Some value.
Proof.
  intros Hnin. induction before as [|arg before IH]; intros configPath.
  - change (scan_rest (value :: after) value = Some value).
    by apply scan_rest_no_flag.
  - change (scan_rest ((arg :: before) ++ "--kubeconfig" :: value :: after) configPath)
      with (if String.eqb arg "--kubeconfig" then
              match before ++ "--kubeconfig" :: value :: after with
              | [] => None
              | next :: _ =>
                  scan_rest (before ++ "--kubeconfig" :: value :: after) next
              end
            else scan_rest (before ++ "--kubeconfig" :: value :: after) configPath).
    destruct (String.eqb arg "--kubeconfig"); [|apply IH].
    destruct (before ++ "--kubeconfig" :: value :: after) eqn:Happ; [|apply IH].
    by destruct before.
Qed.

End KubeconfigArgument.

(** X10.  The argument scan of [getK8sVersion] panics exactly when
    [--kubeconfig] is the last of the arguments that follow the program
    name, and then [getK8sVersion] panics with an index out of range,
    before it calls any collaborator. *)
Theorem getK8sVersion_panics (host : Host) (defaultConfigPath : string) :
  (kubeconfig_path (os_Args host) defaultConfigPath = None ↔
   last (tail (os_Args host)) = Some "--kubeconfig") ∧
  (last (tail (os_Args host)) = Some "--kubeconfig" →
   getK8sVersion host defaultConfigPath = Panic "index out of range").
Proof.
  assert (Hscan : kubeconfig_path (os_Args host) defaultConfigPath = None ↔
                  last (tail (os_Args host)) = Some "--kubeconfig").
  { rewrite kubeconfig_path_rest.
    rewrite <- (scan_rest_None (tail (os_Args host)) EmptyString).
    by destruct (scan_rest (tail (os_Args host)) EmptyString). }
  split; [exact Hscan|].
  intros Hlast. apply Hscan in Hlast. unfold getK8sVersion. by rewrite Hlast.
Qed.

(** X10, witness: the flag without a value. *)
Lemma getK8sVersion_panics_witness :
  getK8sVersion (host_with_args ["virtual-kubelet"; "--kubeconfig"])
                "/root/.kube/config" = Panic "index out of range".
Proof.
  apply (proj2 (getK8sVersion_panics
                  (host_with_args ["virtual-kubelet"; "--kubeconfig"])
                  "/root/.kube/config")).
  reflexivity.
Defined.

Example getK8sVersion_no_argument :
  getK8sVersion (host_with_args []) "/root/.kube/config"
  = Panic "index out of range [0] with length 0".
Proof. reflexivity. Qed.

Example getK8sVersion_flag_last :
  getK8sVersion (host_with_args ["virtual-kubelet"; "--provider"; "kubernetes";
                                 "--kubeconfig"]) "/root/.kube/config"
  = Panic "index out of range".
Proof. reflexivity. Qed.

(** X11.  The path [getK8sVersion] reads its configuration from: with no
    [--kubeconfig] among the arguments it is the default path; otherwise
    it is the argument that follows the last [--kubeconfig], or the
    default path when that argument is empty.  The program name is never
    taken for the flag. *)
Theorem kubeconfig_path_last_flag
    (prog : string) (before after : list string) (value defaultConfigPath : string) :
  ("--kubeconfig" ∉ before →
     kubeconfig_path (prog :: before) defaultConfigPath = Some defaultConfigPath) ∧
  ("--kubeconfig" ∉ value :: after →
     kubeconfig_path (prog :: before ++ "--kubeconfig" :: value :: after)
                     defaultConfigPath
     = Some (if String.eqb value EmptyString then defaultConfigPath else value)).
Proof.
  split; intros Hnin; rewrite kubeconfig_path_rest; cbn [tail].
  - by rewrite scan_rest_no_flag.
  - by rewrite scan_rest_last_flag.
Qed.

(** X11, witness: the flag given twice, and not given at all. *)
Lemma kubeconfig_path_last_flag_witness :
  kubeconfig_path ["--kubeconfig"; "--v=2"] "/root/.kube/config"
  = Some "/root/.kube/config" ∧
  kubeconfig_path ["vk"; "--kubeconfig"; "/a"; "--kubeconfig"; "/b"; "--v=2"]
                  "/root/.kube/config"
  = Some "/b".
Proof.
  split.
  - apply (proj1 (kubeconfig_path_last_flag "--kubeconfig" ["--v=2"] [] EmptyString
                                            "/root/.kube/config")).
    rewrite elem_of_cons, elem_of_nil. intros [?|[]]. discriminate.
  - apply (proj2 (kubeconfig_path_last_flag "vk" ["--kubeconfig"; "/a"] ["--v=2"]
                                            "/b" "/root/.kube/config")).
    rewrite !elem_of_cons, elem_of_nil. intros [?|[?|[]]]; discriminate.
Defined.

(** X12.  Whenever [getK8sVersion] returns, it either returns a version
    reported by the server and warns about nothing, or returns the
    default version [v1.18.2] after exactly one warning; it returns no
    other version. *)
Theorem getK8sVersion_result (host : Host) (defaultConfigPath version : string)
    (warnings : list string) :
  getK8sVersion host defaultConfigPath = Value (version, warnings) →
  (warnings = [] ∧ ∃ c, discovery_ServerVersion host c = Value (Ok version)) ∨
  (version = defaultK8sVersion ∧ ∃ e, warnings = [e]).
Proof.
  unfold getK8sVersion.
  destruct (kubeconfig_path _ _) as [configPath|]; [|discriminate].
  destruct (if negb _ then _ else _) as [[config|e]|msg];
    [|intros [= <- <-]; right; eauto|discriminate].
  destruct (new_discovery_client host config) as [[c|e]|msg];
    [|intros [= <- <-]; right; eauto|discriminate].
  destruct (discovery_ServerVersion host c) as [[gitVersion|e]|msg] eqn:Hv;
    [intros [= <- <-]; left; eauto|intros [= <- <-]; right; eauto|discriminate].
Qed.

(** X12, witness: a host whose collaborators all succeed. *)
Lemma getK8sVersion_result_witness :
  (@nil string = [] ∧
   ∃ c, discovery_ServerVersion (host_with_args ["vk"; "--kubeconfig"; "/b"]) c
        = Value (Ok "v1.19.0")) ∨
  ("v1.19.0" = defaultK8sVersion ∧ ∃ e, @nil string = [e]).
Proof.
  apply (getK8sVersion_result (host_with_args ["vk"; "--kubeconfig"; "/b"])
                              "/root/.kube/config" "v1.19.0" []).
  reflexivity.
Defined.

(* ===================================================================== *)
(** ** The trace of a task *)
(* ===================================================================== *)

Section TaskTrace.

Variable env : Env.
Variable cm : option ConfigMap.
Variables foreignKubeconfigPath clusterId gatewayIP gatewayPrivateIP : string.
Variable foreignClusterId : string.
Variable remoteClient : option Client.

Let loop := publish_loop env cm clusterId gatewayIP gatewayPrivateIP
                         foreignClusterId remoteClient.

Lemma count_events_none (P : Event -> Prop) (p : Event -> bool) events :
  (∀ e, P e → p e = false) → Forall P events → count_events p events = 0.
Proof.
  intros Hp. induction 1 as [|e events He _ IH]; [done|].
  unfold count_events in *. simpl. by rewrite (Hp e He).
Qed.

(** The exact trace of a publish cycle that lists at least one node. *)
Lemma publish_cycle_trace cycles once node rest w :
  env_ListNodes env (w_lists w) = Ok (node :: rest) →
  ∃ podCIDR,
    GetPodCIDR (node :: rest) = Some podCIDR ∧
    let adv := built clusterId gatewayIP gatewayPrivateIP (node :: rest) podCIDR
                     (env_Now env (w_clock_reads w))
                     (env_Now env (S (w_clock_reads w))) in
    let err := env_CreateOrUpdate env (w_publishes w) remoteClient adv in
    loop (S cycles) once w
    = loop cycles (once || bool_decide (err = None))
        (mkWorld (w_connects w) (S (w_lists w)) (S (w_publishes w))
                 (S (S (w_clock_reads w)))
                 (w_trace w ++ cycle_events clusterId foreignClusterId
                                            remoteClient adv err once)).
Proof.
  intros Hl.
  destruct (CreateAdvertisement_cons env clusterId gatewayIP gatewayPrivateIP
              node rest
              (mkWorld (w_connects w) (S (w_lists w)) (w_publishes w)
                       (w_clock_reads w) (w_trace w)))
    as (podCIDR & Hp & Hadv).
  cbn [w_connects w_lists w_publishes w_clock_reads w_trace] in Hadv.
  exists podCIDR. split; [exact Hp|]. cbn zeta.
  set (adv := built _ _ _ _ _ _ _) in *.
  unfold loop. cbn [publish_loop]. unfold bind at 1. unfold list_Nodes.
  rewrite Hl. unfold bind at 1. rewrite Hadv.
  unfold bind at 1. unfold pkg_CreateOrUpdate. cbn [w_publishes].
  unfold cycle_events.
  destruct (env_CreateOrUpdate env (w_publishes w) remoteClient adv) as [e|].
  - rewrite bool_decide_eq_false_2 by done. rewrite orb_false_r.
    go_unfold. unfold emit, add_event.
    cbn [w_connects w_lists w_publishes w_clock_reads w_trace].
    f_equal. f_equal. by rewrite <- !app_assoc.
  - rewrite bool_decide_eq_true_2 by done. rewrite orb_true_r.
    destruct once; go_unfold; unfold emit, add_event;
      cbn [w_connects w_lists w_publishes w_clock_reads w_trace];
      f_equal; f_equal;
      cbn [w_connects w_lists w_publishes w_clock_reads w_trace];
      by rewrite <- !app_assoc.
Qed.

Lemma cycle_events_loop_event adv err once :
  adv_Name adv = "advertisement-" +:+ clusterId →
  adv_Namespace adv = "default" →
  ClusterId adv = clusterId →
  Forall (loop_event clusterId remoteClient)
         (cycle_events clusterId foreignClusterId remoteClient adv err once).
Proof.
  intros Hn Hns Hc. unfold cycle_events.
  destruct err as [e|]; [|destruct once];
    repeat (constructor; [by repeat split|]); constructor.
Qed.

Lemma cycle_events_sleeps adv err once :
  count_events (is_sleep (10 * Minute))
               (cycle_events clusterId foreignClusterId remoteClient adv err once) = 1.
Proof. unfold cycle_events. by destruct err as [e|]; [|destruct once]. Qed.

(** Every run of the publish loop, described by the number [p] of
    upserts it made. *)
Lemma publish_loop_run cycles :
  ∀ once w, ∃ p events,
    let r := loop cycles once w in
    p ≤ cycles ∧
    w_connects r.2 = w_connects w ∧
    w_publishes r.2 = w_publishes w + p ∧
    w_clock_reads r.2 = w_clock_reads w + 2 * p ∧
    w_lists r.2 = w_lists w + p + (if is_running r.1 then 0 else 1) ∧
    (is_running r.1 = true → p = cycles) ∧
    w_trace r.2 = w_trace w ++ events ∧
    Forall (loop_event clusterId remoteClient) events ∧
    count_events (is_sleep (10 * Minute)) events = p.
Proof.
  induction cycles as [|cycles IH]; intros once w; cbn zeta.
  - exists 0, []. simpl. rewrite app_nil_r. repeat split; lia || constructor.
  - destruct (env_ListNodes env (w_lists w)) as [[|node rest]|e] eqn:Hl.
    + exists 0, []. unfold loop. rewrite publish_cycle_nil by exact Hl.
      cbn [fst snd w_connects w_lists w_publishes w_clock_reads w_trace].
      rewrite app_nil_r. cbn [is_running].
      repeat split; lia || discriminate || constructor.
    + destruct (publish_cycle_trace cycles once node rest w Hl)
        as (podCIDR & _ & Hstep). cbn zeta in Hstep. rewrite Hstep.
      set (adv := built _ _ _ _ _ _ _) in *.
      set (err := env_CreateOrUpdate _ _ _ _) in *.
      set (w2 := mkWorld _ _ _ _ _) in *.
      destruct (IH (once || bool_decide (err = None)) w2)
        as (p & events & Hp & Hc & Hpub & Hclk & Hlists & Hrun & Htr & Hall & Hcount).
      exists (S p),
        (cycle_events clusterId foreignClusterId remoteClient adv err once ++ events).
      rewrite Hc, Hpub, Hclk, Hlists, Htr. unfold w2.
      cbn [w_connects w_lists w_publishes w_clock_reads w_trace].
      rewrite count_events_app, cycle_events_sleeps, Hcount, <- app_assoc.
      repeat split; try lia.
      * intros Hr. specialize (Hrun Hr). lia.
      * apply Forall_app. split; [|exact Hall].
        by apply cycle_events_loop_event.
    + exists 0, [LogError e "Unable to list nodes"].
      unfold loop. erewrite publish_cycle_Err by exact Hl.
      cbn [fst snd add_event w_connects w_lists w_publishes w_clock_reads w_trace
           is_running].
      repeat split; try lia || discriminate.
      constructor; [by repeat split|constructor].
Qed.

(** Every run of the connection loop, described by the number [f] of
    failed attempts. *)
Lemma connect_loop_run remaining :
  ∀ st w, ∃ st' w1 f events,
    connect_loop env foreignKubeconfigPath cm foreignClusterId remaining st w
    = (Value st', w1) ∧
    f ≤ remaining ∧
    c_retry st' = c_retry st + f ∧
    (∀ j, j < f → ∃ e, env_NewCRDClient env (w_connects w + j)
                                        foreignKubeconfigPath cm = Err e) ∧
    (if bool_decide (f < remaining)
     then ∃ c, env_NewCRDClient env (w_connects w + f) foreignKubeconfigPath cm = Ok c ∧
               c_remoteClient st' = Some c ∧
               w_connects w1 = w_connects w + f + 1
     else w_connects w1 = w_connects w + f) ∧
    w_lists w1 = w_lists w ∧
    w_publishes w1 = w_publishes w ∧
    w_clock_reads w1 = w_clock_reads w ∧
    w_trace w1 = w_trace w ++ events ∧
    Forall connect_event events ∧
    count_events (is_sleep (1 * Minute)) events = f.
Proof.
  induction remaining as [|remaining IH]; intros st w.
  - exists st, w, 0, []. rewrite app_nil_r, Nat.add_0_r.
    rewrite bool_decide_eq_false_2 by lia.
    repeat split; (lia || constructor || (intros; lia)).
  - destruct (env_NewCRDClient env (w_connects w) foreignKubeconfigPath cm)
      as [c|e] eqn:Hc.
    + erewrite connect_loop_Ok by exact Hc.
      eexists _, _, 0, []. split; [reflexivity|].
      cbn [c_retry c_remoteClient w_connects w_lists w_publishes w_clock_reads w_trace].
      rewrite app_nil_r, !Nat.add_0_r. rewrite bool_decide_eq_true_2 by lia.
      repeat split; try (lia || constructor || (intros; lia)).
      exists c. repeat split; [done|lia].
    + erewrite connect_loop_Err by exact Hc.
      match goal with
      | |- context [connect_loop _ _ _ _ remaining ?st0 ?w0] =>
          destruct (IH st0 w0)
            as (st' & w1 & f & events & Hrun & Hf & Hretry & Hfail & Hlast
                & Hl & Hp & Hk & Htr & Hall & Hcount)
      end.
      cbn [c_retry add_event w_connects w_lists w_publishes w_clock_reads w_trace]
        in Hretry, Hfail, Hlast, Hl, Hp, Hk, Htr.
      exists st', w1, (S f),
        ([LogError e ("Unable to create client to remote cluster "
                      +:+ foreignClusterId +:+ ". Retry in 1 minute");
          Slept (1 * Minute)] ++ events).
      split; [exact Hrun|]. rewrite Hretry, Hl, Hp, Hk, Htr.
      rewrite count_events_app, Hcount, <- !app_assoc.
      split; [lia|]. split; [lia|]. split.
      { intros j Hj. destruct j as [|j].
        - rewrite Nat.add_0_r. by exists e.
        - destruct (Hfail j) as [e' He']; [lia|]. exists e'.
          by replace (w_connects w + S j) with (S (w_connects w) + j) by lia. }
      split.
      { destruct (decide (f < remaining)) as [Hlt|Hge].
        - rewrite bool_decide_eq_true_2 in Hlast by done.
          rewrite bool_decide_eq_true_2 by lia.
          destruct Hlast as (c & Hok & Hcl & Hn). exists c.
          replace (w_connects w + S f) with (S (w_connects w) + f) by lia.
          repeat split; [done|done|lia].
        - rewrite bool_decide_eq_false_2 in Hlast by done.
          rewrite bool_decide_eq_false_2 by lia. lia. }
      repeat split; try done.
      constructor; [done|]. constructor; [done|exact Hall].
Qed.

End TaskTrace.

Section TaskRun.

Variable env : Env.
Variables foreignKubeconfigPath clusterId gatewayIP gatewayPrivateIP : string.

Lemma defer_Done_run body w :
  is_running (defer_Done body w).1 = is_running (body w).1 ∧
  (defer_Done body w).2
  = (if is_running (body w).1 then (body w).2 else add_event WgDone (body w).2).
Proof. unfold defer_Done. by destruct (body w) as [[[|]|msg] w']. Qed.

(** Every run of a task whose peer identifier can be extracted, described
    by the number [f] of failed connection attempts and the number [p] of
    upserts. *)
Lemma GenerateAdvertisement_run cycles cm id w :
  cluster_id_suffix cm = Some id →
  ∃ f p remote line events_c events_l,
    let r := GenerateAdvertisement env cycles foreignKubeconfigPath cm
                                   clusterId gatewayIP gatewayPrivateIP w in
    f ≤ 3 ∧ p ≤ cycles ∧
    (∀ j, j < f → ∃ e, env_NewCRDClient env (w_connects w + j)
                                        foreignKubeconfigPath cm = Err e) ∧
    (f < 3 → ∃ c, env_NewCRDClient env (w_connects w + f)
                                   foreignKubeconfigPath cm = Ok c ∧
                  remote = Some c) ∧
    w_connects r.2 = w_connects w + (if bool_decide (f < 3) then f + 1 else 3) ∧
    (f = 3 → r.1 = Value Returned ∧ p = 0 ∧ w_lists r.2 = w_lists w) ∧
    w_publishes r.2 = w_publishes w + p ∧
    w_clock_reads r.2 = w_clock_reads w + 2 * p ∧
    w_lists r.2 ≤ w_lists w + p + 1 ∧
    (is_running r.1 = true → p = cycles ∧ w_lists r.2 = w_lists w + p) ∧
    w_trace r.2
    = w_trace w ++ events_c ++ [line] ++ events_l
        ++ (if is_running r.1 then [] else [WgDone]) ∧
    is_log line ∧
    Forall connect_event events_c ∧
    count_events (is_sleep (1 * Minute)) events_c = f ∧
    Forall (loop_event clusterId remote) events_l ∧
    count_events (is_sleep (10 * Minute)) events_l = p.
Proof.
  intros Hid.
  destruct (connect_loop_run env cm foreignKubeconfigPath id 3
              (mkConnect 0 None EmptyString) w)
    as (st & w1 & f & events_c & Hconn & Hf & Hretry & Hfail & Hlast
        & Hl1 & Hp1 & Hk1 & Htr1 & Hall1 & Hcount1).
  cbn [c_retry] in Hretry. cbn zeta.
  rewrite (GenerateAdvertisement_after_connect _ _ _ _ _ _ _ _ _ _ _ Hid Hconn).
  rewrite Hretry. cbn [Nat.add].
  destruct (decide (f < 3)) as [Hlt|Hge].
  - rewrite bool_decide_eq_true_2 in Hlast by done.
    destruct Hlast as (c & Hok & Hclient & Hconnects).
    replace (f =? 3) with false by (symmetry; apply Nat.eqb_neq; lia).
    rewrite Hclient.
    match goal with
    | |- context [defer_Done ?b ?w0] =>
        destruct (defer_Done_run b w0) as [Hrun Hworld]; set (body := b) in *;
        set (w0' := w0) in *
    end.
    destruct (publish_loop_run env cm clusterId gatewayIP gatewayPrivateIP id
                (Some c) cycles false w0')
      as (p & events_l & Hp & Hc2 & Hpub2 & Hclk2 & Hlists2 & Hrun2 & Htr2
          & Hall2 & Hcount2).
    fold body in Hp, Hc2, Hpub2, Hclk2, Hlists2, Hrun2, Htr2.
    exists f, p, (Some c),
      (LogInfo ("created client to remote cluster " +:+ id)), events_c, events_l.
    rewrite Hrun, Hworld.
    assert (Hw : ∀ w', w_connects (if is_running (body w0').1 then w'
                                   else add_event WgDone w') = w_connects w' ∧
                       w_lists (if is_running (body w0').1 then w'
                                else add_event WgDone w') = w_lists w' ∧
                       w_publishes (if is_running (body w0').1 then w'
                                    else add_event WgDone w') = w_publishes w' ∧
                       w_clock_reads (if is_running (body w0').1 then w'
                                      else add_event WgDone w') = w_clock_reads w' ∧
                       w_trace (if is_running (body w0').1 then w'
                                else add_event WgDone w')
                       = w_trace w' ++ (if is_running (body w0').1 then [] else [WgDone])).
    { intros w'. destruct (is_running (body w0').1);
        cbn [add_event w_connects w_lists w_publishes w_clock_reads w_trace];
        rewrite ?app_nil_r; repeat split; reflexivity. }
    destruct (Hw (body w0').2) as (-> & -> & -> & -> & ->).
    rewrite Hc2, Hpub2, Hclk2, Hlists2, Htr2. unfold w0'.
    cbn [add_event w_connects w_lists w_publishes w_clock_reads w_trace].
    rewrite Hconnects, Hl1, Hp1, Hk1, Htr1, bool_decide_eq_true_2 by done.
    rewrite <- !app_assoc.
    split; [lia|]. split; [done|]. split; [done|].
    split; [intros _; by exists c|].
    split; [lia|]. split; [intros ->; lia|]. split; [done|]. split; [done|].
    split.
    { match goal with |- context [if ?b then 0 else 1] => destruct b end; lia. }
    split.
    { intros Hr. specialize (Hrun2 Hr). rewrite Hr. lia. }
    repeat split; done.
  - assert (f = 3) as -> by lia.
    rewrite bool_decide_eq_false_2 in Hlast by lia.
    cbn [Nat.eqb].
    exists 3, 0, None,
      (LogError (c_err st) ("Failed to create client to remote cluster " +:+ id)),
      events_c, [].
    rewrite bool_decide_eq_false_2 by lia.
    cbn [fst snd is_running add_event w_connects w_lists w_publishes w_clock_reads w_trace].
    rewrite Hlast, Hl1, Hp1, Hk1, Htr1, <- !app_assoc.
    split; [lia|]. split; [lia|]. split; [done|]. split; [lia|].
    repeat split; try done; try lia.
Qed.

End TaskRun.

Section EventCounts.

Lemma connect_event_counts e :
  connect_event e →
  is_sleep (10 * Minute) e = false ∧ is_wg_add e = false ∧ is_wg_done e = false ∧
  ∀ clusterId remote, upsert_of clusterId remote e.
Proof. destruct e; simpl; try done. intros ->. by repeat split. Qed.

Lemma loop_event_counts clusterId remote e :
  loop_event clusterId remote e →
  is_sleep (1 * Minute) e = false ∧ is_wg_add e = false ∧ is_wg_done e = false ∧
  upsert_of clusterId remote e.
Proof. destruct e; simpl; intros [Hu He]; try done. subst. by repeat split. Qed.

Lemma is_log_counts e :
  is_log e →
  (∀ d, is_sleep d e = false) ∧ is_wg_add e = false ∧ is_wg_done e = false ∧
  ∀ clusterId remote, upsert_of clusterId remote e.
Proof. by destruct e. Qed.

Lemma count_connect_events p events :
  (∀ e, connect_event e → p e = false) →
  Forall connect_event events → count_events p events = 0.
Proof. apply count_events_none. Qed.

Lemma count_loop_events clusterId remote p events :
  (∀ e, loop_event clusterId remote e → p e = false) →
  Forall (loop_event clusterId remote) events → count_events p events = 0.
Proof. apply count_events_none. Qed.

Lemma count_events_one p e : count_events p [e] = if p e then 1 else 0.
Proof. unfold count_events. simpl. by destruct (p e). Qed.

End EventCounts.

Section TaskFacts.

Variable env : Env.
Variables foreignKubeconfigPath clusterId gatewayIP gatewayPrivateIP : string.

(** The run of a task whose peer identifier cannot be extracted. *)
Lemma GenerateAdvertisement_no_id cycles cm w :
  cluster_id_suffix cm = None →
  GenerateAdvertisement env cycles foreignKubeconfigPath cm
                        clusterId gatewayIP gatewayPrivateIP w
  = (Panic "slice bounds out of range", add_event WgDone w).
Proof.
  intros Hid. unfold GenerateAdvertisement, defer_Done, foreign_cluster_id.
  rewrite Hid. reflexivity.
Qed.

(** The wait-group events of a task: no [wg.Add], and one [wg.Done] as
    soon as it has returned or panicked. *)
Lemma GenerateAdvertisement_wg cycles cm w :
  let r := GenerateAdvertisement env cycles foreignKubeconfigPath cm
                                 clusterId gatewayIP gatewayPrivateIP w in
  wg_adds r.2 = wg_adds w ∧
  wg_dones r.2 = wg_dones w + (if is_running r.1 then 0 else 1).
Proof.
  cbn zeta. destruct (cluster_id_suffix cm) as [id|] eqn:Hid.
  - destruct (GenerateAdvertisement_run env foreignKubeconfigPath clusterId
                gatewayIP gatewayPrivateIP cycles cm id w Hid)
      as (f & p & remote & line & events_c & events_l & _ & _ & _ & _ & _ & _ & _
          & _ & _ & _ & Htr & Hline & Hall_c & _ & Hall_l & _).
    cbn zeta in Htr. unfold wg_adds, wg_dones. rewrite Htr.
    rewrite !count_events_app, !count_events_one.
    destruct (is_log_counts line Hline) as (_ & -> & -> & _).
    rewrite !(count_connect_events _ events_c) by
      (done || intros e He; by destruct (connect_event_counts e He) as (? & ? & ? & ?)).
    rewrite !(count_loop_events clusterId remote _ events_l) by
      (done || intros e He; by destruct (loop_event_counts _ _ e He) as (? & ? & ? & ?)).
    destruct (is_running _); unfold count_events; simpl; lia.
  - rewrite GenerateAdvertisement_no_id by done. cbn [fst snd is_running].
    unfold wg_adds, wg_dones, add_event; simpl.
    rewrite !count_events_app, !count_events_one. simpl. lia.
Qed.

End TaskFacts.

(** X13.  The accounting of a task, for every environment and every
    observation length: if it has made [p] upserts, it has slept ten
    minutes exactly [p] times (after every upsert, successful or not),
    read the clock [2 p] times, listed the nodes at most [p + 1] times
    and called the connector at most 3 times; while it is still running
    after [cycles] cycles it has made exactly [cycles] upserts. *)
Theorem GenerateAdvertisement_accounting
    (env : Env) (cycles : nat)
    (foreignKubeconfigPath clusterId gatewayIP gatewayPrivateIP : string)
    (cm : option ConfigMap) (w : World) :
  let r := GenerateAdvertisement env cycles foreignKubeconfigPath cm
                                 clusterId gatewayIP gatewayPrivateIP w in
  ∃ p, p ≤ cycles ∧
    w_publishes r.2 = w_publishes w + p ∧
    sleeps (10 * Minute) r.2 = sleeps (10 * Minute) w + p ∧
    w_clock_reads r.2 = w_clock_reads w + 2 * p ∧
    w_lists r.2 ≤ w_lists w + p + 1 ∧
    w_connects r.2 ≤ w_connects w + 3 ∧
    (is_running r.1 = true → p = cycles ∧ w_lists r.2 = w_lists w + cycles).
Proof.
  cbn zeta. destruct (cluster_id_suffix cm) as [id|] eqn:Hid.
  - destruct (GenerateAdvertisement_run env foreignKubeconfigPath clusterId
                gatewayIP gatewayPrivateIP cycles cm id w Hid)
      as (f & p & remote & line & events_c & events_l & Hf & Hp & _ & _ & Hconn & _
          & Hpub & Hclk & Hlists & Hrun & Htr & Hline & Hall_c & _ & Hall_l & Hcount).
    cbn zeta in *. exists p.
    split; [done|]. split; [done|]. split.
    { unfold sleeps. rewrite Htr, !count_events_app, !count_events_one, Hcount.
      destruct (is_log_counts line Hline) as (-> & _).
      rewrite (count_connect_events _ events_c) by
        (done || intros e He; by destruct (connect_event_counts e He) as (? & ?)).
      destruct (is_running _); unfold count_events; simpl; lia. }
    split; [done|]. split; [done|]. split.
    { rewrite Hconn. case_bool_decide; lia. }
    intros Hr. destruct (Hrun Hr) as [-> ->]. done.
  - rewrite GenerateAdvertisement_no_id by done. exists 0.
    cbn [fst snd is_running add_event w_connects w_lists w_publishes w_clock_reads].
    rewrite sleeps_add. simpl. repeat split; lia || discriminate.
Qed.

(** X14.  The connection phase of a task, for every environment: it
    stops at the first successful attempt, sleeps one minute after each
    of the [f ≤ 3] failed attempts that precede it, and the publish loop
    never calls the connector again; after three failures the task has
    returned without listing the nodes or publishing. *)
Theorem GenerateAdvertisement_connects
    (env : Env) (cycles : nat)
    (foreignKubeconfigPath clusterId gatewayIP gatewayPrivateIP : string)
    (cm : option ConfigMap) (id : string) (w : World) :
  cluster_id_suffix cm = Some id →
  let r := GenerateAdvertisement env cycles foreignKubeconfigPath cm
                                 clusterId gatewayIP gatewayPrivateIP w in
  ∃ f, f ≤ 3 ∧
    (∀ j, j < f → ∃ e, env_NewCRDClient env (w_connects w + j)
                                        foreignKubeconfigPath cm = Err e) ∧
    (f < 3 → ∃ c, env_NewCRDClient env (w_connects w + f)
                                   foreignKubeconfigPath cm = Ok c) ∧
    w_connects r.2 = w_connects w + (if bool_decide (f < 3) then f + 1 else 3) ∧
    sleeps (1 * Minute) r.2 = sleeps (1 * Minute) w + f ∧
    (f = 3 → r.1 = Value Returned ∧
             w_lists r.2 = w_lists w ∧ w_publishes r.2 = w_publishes w).
Proof.
  intros Hid. cbn zeta.
  destruct (GenerateAdvertisement_run env foreignKubeconfigPath clusterId
              gatewayIP gatewayPrivateIP cycles cm id w Hid)
    as (f & p & remote & line & events_c & events_l & Hf & Hp & Hfail & Hok & Hconn
        & Hthree & Hpub & _ & _ & _ & Htr & Hline & Hall_c & Hcount & Hall_l & _).
  cbn zeta in *. exists f.
  split; [done|]. split; [done|]. split.
  { intros Hlt. destruct (Hok Hlt) as (c & Hc & _). by exists c. }
  split; [done|]. split.
  { unfold sleeps. rewrite Htr, !count_events_app, !count_events_one, Hcount.
    destruct (is_log_counts line Hline) as (-> & _).
    rewrite (count_loop_events clusterId remote _ events_l) by
      (done || intros e He; by destruct (loop_event_counts _ _ e He) as (? & ?)).
    destruct (is_running _); unfold count_events; simpl; lia. }
  intros Hf3. destruct (Hthree Hf3) as (Hr & -> & Hl).
  split; [done|]. split; [done|]. lia.
Qed.

(** X14, witness: a connector that fails once. *)
Lemma GenerateAdvertisement_connects_witness :
  ∃ f, f ≤ 3 ∧
    w_connects (GenerateAdvertisement (env_connect_fails 1) 2 no_path (Some cm_peer_a)
                  "cluster-1" "1.2.3.4" "10.0.0.1" initial_world).2
    = 0 + (if bool_decide (f < 3) then f + 1 else 3) ∧
    sleeps (1 * Minute)
           (GenerateAdvertisement (env_connect_fails 1) 2 no_path (Some cm_peer_a)
              "cluster-1" "1.2.3.4" "10.0.0.1" initial_world).2
    = 0 + f.
Proof.
  destruct (GenerateAdvertisement_connects (env_connect_fails 1) 2 no_path
              "cluster-1" "1.2.3.4" "10.0.0.1" (Some cm_peer_a) "peer-a"
              initial_world eq_refl)
    as (f & Hf & _ & _ & Hc & Hs & _).
  exists f. split; [exact Hf|]. split; [exact Hc|exact Hs].
Defined.

(** X15.  Every upsert a task makes goes through one and the same
    client and carries an advertisement named [advertisement-<clusterId>]
    in namespace [default] with the cluster's own identifier: the
    identity of the advertisement is the same in every cycle. *)
Theorem GenerateAdvertisement_upserts
    (env : Env) (cycles : nat)
    (foreignKubeconfigPath clusterId gatewayIP gatewayPrivateIP : string)
    (cm : option ConfigMap) (w : World) :
  ∃ remote events,
    appended w (GenerateAdvertisement env cycles foreignKubeconfigPath cm
                  clusterId gatewayIP gatewayPrivateIP w).2 events ∧
    Forall (upsert_of clusterId remote) events.
Proof.
  unfold appended. destruct (cluster_id_suffix cm) as [id|] eqn:Hid.
  - destruct (GenerateAdvertisement_run env foreignKubeconfigPath clusterId
                gatewayIP gatewayPrivateIP cycles cm id w Hid)
      as (f & p & remote & line & events_c & events_l & _ & _ & _ & _ & _ & _ & _
          & _ & _ & _ & Htr & Hline & Hall_c & _ & Hall_l & _).
    cbn zeta in Htr. eexists remote, _. split; [exact Htr|].
    apply Forall_app. split.
    { eapply Forall_impl; [exact Hall_c|]. intros e He.
      by destruct (connect_event_counts e He) as (_ & _ & _ & Hu). }
    apply Forall_app. split.
    { constructor; [|constructor]. by destruct (is_log_counts line Hline) as (_ & _ & _ & Hu). }
    apply Forall_app. split.
    { eapply Forall_impl; [exact Hall_l|]. by intros e [He _]. }
    destruct (is_running _); repeat constructor.
  - rewrite GenerateAdvertisement_no_id by done.
    exists None, [WgDone]. split; [reflexivity|]. repeat constructor.
Qed.

Section GoodCycles.

Variable env : Env.
Variable cm : option ConfigMap.
Variables clusterId gatewayIP gatewayPrivateIP foreignClusterId : string.
Variable remoteClient : option Client.

Let loop := publish_loop env cm clusterId gatewayIP gatewayPrivateIP
                         foreignClusterId remoteClient.

(** [n] cycles whose listing returns at least one node, whatever their
    upserts do, lead to the next cycle. *)
Lemma publish_loop_listed n :
  ∀ more once w,
    (∀ j, j < n → ∃ node rest, env_ListNodes env (w_lists w + j) = Ok (node :: rest)) →
    ∃ once' w',
      loop (n + more) once w = loop more once' w' ∧
      w_connects w' = w_connects w ∧
      w_lists w' = w_lists w + n ∧
      w_publishes w' = w_publishes w + n ∧
      sleeps (10 * Minute) w' = sleeps (10 * Minute) w + n.
Proof.
  induction n as [|n IH]; intros more once w Hlist.
  - exists once, w. cbn [Nat.add]. repeat split; lia.
  - destruct (Hlist 0) as (node & rest & Hl); [lia|]. rewrite Nat.add_0_r in Hl.
    destruct (publish_cycle_Ok env cm clusterId gatewayIP gatewayPrivateIP
                foreignClusterId remoteClient (n + more) once node rest w Hl)
      as (adv & w2 & Hstep & Hconn & Hlists & Hpubs & Hsl & _).
    fold loop in Hstep. cbn [Nat.add]. rewrite Hstep.
    edestruct (IH more) as (once' & w' & Hrun & Hc' & Hl' & Hp' & Hs').
    { intros j Hj. rewrite Hlists.
      replace (S (w_lists w) + j) with (w_lists w + S j) by lia. apply Hlist. lia. }
    exists once', w'. split; [exact Hrun|].
    rewrite Hc', Hl', Hp', Hs', Hconn, Hlists, Hpubs, Hsl. repeat split; lia.
Qed.

End GoodCycles.

(** X16.  A failed upsert does not end the task: in a task whose
    connection is established at the first attempt, if the node listing
    returns at least one node in each of the first [n] cycles, the task
    is still running after them, having made [n] upserts and slept ten
    minutes [n] times, whatever the outcome of the upserts. *)
Theorem publish_failure_is_not_fatal
    (env : Env) (n : nat)
    (foreignKubeconfigPath clusterId gatewayIP gatewayPrivateIP : string)
    (cm : option ConfigMap) (id : string) (c : Client) (w : World) :
  cluster_id_suffix cm = Some id →
  env_NewCRDClient env (w_connects w) foreignKubeconfigPath cm = Ok c →
  (∀ j, j < n → ∃ node rest, env_ListNodes env (w_lists w + j) = Ok (node :: rest)) →
  ∃ w',
    GenerateAdvertisement env n foreignKubeconfigPath cm
                          clusterId gatewayIP gatewayPrivateIP w
    = (Value Running, w') ∧
    w_lists w' = w_lists w + n ∧
    w_publishes w' = w_publishes w + n ∧
    sleeps (10 * Minute) w' = sleeps (10 * Minute) w + n.
Proof.
  intros Hid Hc Hlist.
  erewrite GenerateAdvertisement_after_connect;
    [|exact Hid|erewrite connect_loop_Ok by exact Hc; reflexivity].
  cbn [c_retry c_remoteClient Nat.eqb].
  set (w1 := add_event _ _).
  destruct (publish_loop_listed env cm clusterId gatewayIP gatewayPrivateIP
              id (Some c) n 0 false w1 Hlist)
    as (once' & w' & Hrun & _ & Hl & Hp & Hs).
  rewrite Nat.add_0_r in Hrun. unfold defer_Done. rewrite Hrun. cbn [publish_loop ret].
  exists w'. split; [reflexivity|]. rewrite Hl, Hp, Hs.
  unfold w1. rewrite sleeps_add. simpl.
  unfold sleeps; simpl. repeat split; lia.
Qed.

(** X16, witness: every upsert fails, for four cycles. *)
Lemma publish_failure_is_not_fatal_witness :
  ∃ w',
    GenerateAdvertisement env_publish_fails 4 no_path (Some cm_peer_a)
                          "cluster-1" "1.2.3.4" "10.0.0.1" initial_world
    = (Value Running, w') ∧
    w_lists w' = 0 + 4 ∧
    w_publishes w' = 0 + 4 ∧
    sleeps (10 * Minute) w' = 0 + 4.
Proof.
  apply (publish_failure_is_not_fatal env_publish_fails 4 no_path
           "cluster-1" "1.2.3.4" "10.0.0.1" (Some cm_peer_a) "peer-a"
           (ClientTo 0) initial_world).
  - reflexivity.
  - reflexivity.
  - intros j Hj. by exists node_10_32, [].
Defined.

Example publish_failures_start_no_watcher :
  let w' := (GenerateAdvertisement env_publish_fails 4 no_path (Some cm_peer_a)
               "cluster-1" "1.2.3.4" "10.0.0.1" initial_world).2 in
  publish_successes w' = 0 ∧ watcher_starts w' = 0.
Proof. vm_compute. split; reflexivity. Qed.

(** X17.  A listing that returns no node at all crashes the task: in a
    task whose connection is established, at whichever of its three
    attempts, if the listing returns at least one node in the first [k]
    cycles and an empty list in the next one, the task panics in that
    cycle with an index out of range, without an upsert in it. *)
Theorem empty_listing_panics
    (env : Env) (cycles k f : nat)
    (foreignKubeconfigPath clusterId gatewayIP gatewayPrivateIP : string)
    (cm : option ConfigMap) (id : string) (c : Client) (w : World) :
  cluster_id_suffix cm = Some id →
  f < 3 →
  (∀ j, j < f → ∃ e, env_NewCRDClient env (w_connects w + j)
                                      foreignKubeconfigPath cm = Err e) →
  env_NewCRDClient env (w_connects w + f) foreignKubeconfigPath cm = Ok c →
  (∀ j, j < k → ∃ node rest, env_ListNodes env (w_lists w + j) = Ok (node :: rest)) →
  env_ListNodes env (w_lists w + k) = Ok [] →
  k < cycles →
  ∃ w',
    GenerateAdvertisement env cycles foreignKubeconfigPath cm
                          clusterId gatewayIP gatewayPrivateIP w
    = (Panic "index out of range [0] with length 0", w') ∧
    w_lists w' = w_lists w + S k ∧
    w_publishes w' = w_publishes w + k.
Proof.
  intros Hid Hf Hfail Hc Hlist Hnil Hlt.
  destruct (connect_loop_first_success env foreignKubeconfigPath cm id f 3
              (mkConnect 0 None EmptyString) w c Hf Hfail Hc)
    as (w1 & Hconn & _ & Hl1 & Hp1 & _ & _).
  rewrite (GenerateAdvertisement_after_connect _ _ _ _ _ _ _ _ _ _ _ Hid Hconn).
  cbn [c_retry c_remoteClient Nat.add].
  replace (f =? 3) with false by (symmetry; apply Nat.eqb_neq; lia).
  set (w2 := add_event _ w1).
  assert (Hl2 : w_lists w2 = w_lists w) by exact Hl1.
  assert (Hp2 : w_publishes w2 = w_publishes w) by exact Hp1.
  replace cycles with (k + S (cycles - S k)) by lia.
  destruct (publish_loop_listed env cm clusterId gatewayIP gatewayPrivateIP
              id (Some c) k (S (cycles - S k)) false w2)
    as (once' & w' & Hrun & _ & Hl & Hp & _).
  { intros j Hj. rewrite Hl2. by apply Hlist. }
  unfold defer_Done. rewrite Hrun.
  rewrite publish_cycle_nil by (rewrite Hl, Hl2; exact Hnil).
  eexists. split; [reflexivity|].
  cbn [add_event w_lists w_publishes]. rewrite Hl, Hp, Hl2, Hp2. lia.
Qed.

(** X17, witness: the connection succeeds at the third attempt, the
    first cycle goes through and the second listing returns no node. *)
Lemma empty_listing_panics_witness :
  ∃ w',
    GenerateAdvertisement env_reconnect_no_nodes 3 no_path (Some cm_peer_a)
                          "cluster-1" "1.2.3.4" "10.0.0.1" initial_world
    = (Panic "index out of range [0] with length 0", w') ∧
    w_lists w' = 0 + 2 ∧
    w_publishes w' = 0 + 1.
Proof.
  apply (empty_listing_panics env_reconnect_no_nodes 3 1 2 no_path
           "cluster-1" "1.2.3.4" "10.0.0.1" (Some cm_peer_a) "peer-a"
           (ClientTo 2) initial_world).
  - reflexivity.
  - lia.
  - intros j Hj. exists "unreachable".
    destruct j as [|[|j]]; [reflexivity|reflexivity|lia].
  - reflexivity.
  - intros j Hj. exists node_10_32, []. by replace j with 0 by lia.
  - reflexivity.
  - lia.
Defined.

(** X18.  With a clock that never runs backwards, an advertisement built
    on a non-empty node list expires no sooner than 30 minutes after its
    creation time. *)
Theorem CreateAdvertisement_expiry_monotone
    (env : Env) (nodes : list Node)
    (clusterId gatewayIP gatewayPrivateIp : string) (w : World) :
  monotone_clock env →
  nodes ≠ [] →
  ∃ adv w',
    CreateAdvertisement env nodes clusterId gatewayIP gatewayPrivateIp w
    = (Value adv, w') ∧
    (Timestamp adv + 30 * Minute ≤ TimeToLive adv)%Z.
Proof.
  intros Hmono Hnodes. destruct nodes as [|node rest]; [done|].
  destruct (CreateAdvertisement_cons env clusterId gatewayIP gatewayPrivateIp
              node rest w) as (podCIDR & _ & ->).
  eexists _, _. split; [reflexivity|]. cbn [Timestamp TimeToLive built].
  pose proof (Hmono (w_clock_reads w) (S (w_clock_reads w))). lia.
Qed.

(** X18, witness: a clock that advances by a nanosecond per reading. *)
Lemma CreateAdvertisement_expiry_monotone_witness :
  ∃ adv w',
    CreateAdvertisement env_all_good [node_10_32] "cluster-1" "1.2.3.4" "10.0.0.1"
                        initial_world = (Value adv, w') ∧
    (Timestamp adv + 30 * Minute ≤ TimeToLive adv)%Z.
Proof.
  apply (CreateAdvertisement_expiry_monotone env_all_good [node_10_32]
           "cluster-1" "1.2.3.4" "10.0.0.1" initial_world).
  - intros i j Hij. simpl. lia.
  - discriminate.
Defined.

(* ===================================================================== *)
(** ** More on [StartBroadcaster] *)
(* ===================================================================== *)

Section WaitGroup.

Lemma wg_adds_add e w :
  wg_adds (add_event e w) = wg_adds w + (if is_wg_add e then 1 else 0).
Proof.
  unfold wg_adds, add_event; simpl. by rewrite count_events_app, count_events_one.
Qed.

Lemma wg_dones_add e w :
  wg_dones (add_event e w) = wg_dones w + (if is_wg_done e then 1 else 0).
Proof.
  unfold wg_dones, add_event; simpl. by rewrite count_events_app, count_events_one.
Qed.

End WaitGroup.

Section Spawning.

Variable env : Env.
Variable cycles : nat.
Variables clusterId foreignKubeconfig gatewayIP gatewayPrivateIP : string.

Let tasks := run_tasks env cycles clusterId foreignKubeconfig gatewayIP gatewayPrivateIP.

Lemma selected_cons cm items :
  selected (cm :: items)
  = if GoStrings.HasPrefix (cm_Name cm) "foreign-kubeconfig"
    then cm :: selected items else selected items.
Proof.
  unfold selected. rewrite filter_cons.
  destruct (GoStrings.HasPrefix (cm_Name cm) "foreign-kubeconfig");
    [by rewrite decide_True|by rewrite decide_False].
Qed.

(** The wait group over the tasks that are started: [a] calls of
    [wg.Add(1)] and [d] of [wg.Done()]. *)
Lemma run_tasks_wg items :
  ∀ all_returned w, ∃ a d,
    let r := tasks items all_returned w in
    wg_adds r.2 = wg_adds w + a ∧
    wg_dones r.2 = wg_dones w + d ∧
    d ≤ a ∧ a ≤ length (selected items) ∧
    (∀ o, r.1 = Value o → a = length (selected items)) ∧
    (r.1 = Value Returned → all_returned = Returned ∧ d = a) ∧
    (r.1 = Value Running → all_returned = Running ∨ d < a).
Proof.
  induction items as [|cm items IH]; intros all_returned w.
  - exists 0, 0. cbn. repeat split; try lia.
    + congruence.
    + intros [= ->]. by left.
  - rewrite selected_cons. unfold tasks in *.
    assert (Hstep :
              run_tasks env cycles clusterId foreignKubeconfig gatewayIP
                        gatewayPrivateIP (cm :: items) all_returned w
              = if GoStrings.HasPrefix (cm_Name cm) "foreign-kubeconfig" then
                  match GenerateAdvertisement env cycles foreignKubeconfig (Some cm)
                          clusterId gatewayIP gatewayPrivateIP (add_event WgAdd w) with
                  | (Value o, w2) =>
                      run_tasks env cycles clusterId foreignKubeconfig gatewayIP
                                gatewayPrivateIP items
                                (match o with
                                 | Returned => all_returned
                                 | Running => Running
                                 end) w2
                  | (Panic msg, w2) => (Panic msg, w2)
                  end
                else run_tasks env cycles clusterId foreignKubeconfig gatewayIP
                               gatewayPrivateIP items all_returned w).
    { cbn [run_tasks].
      by destruct (GoStrings.HasPrefix (cm_Name cm) "foreign-kubeconfig"). }
    rewrite Hstep. clear Hstep.
    destruct (GoStrings.HasPrefix (cm_Name cm) "foreign-kubeconfig"); [|apply IH].
    pose proof (GenerateAdvertisement_wg env foreignKubeconfig clusterId gatewayIP
                  gatewayPrivateIP cycles (Some cm) (add_event WgAdd w)) as Hwg.
    cbn zeta in Hwg.
    destruct (GenerateAdvertisement _ _ _ _ _ _ _ (add_event WgAdd w))
      as [[o|msg] w2].
    + cbn [fst snd] in Hwg. destruct Hwg as [Hadds Hdones].
      destruct (IH (match o with Returned => all_returned | Running => Running end) w2)
        as (a & d & Ha & Hd & Hle & Hlen & Hval & Hret & Hrun).
      cbn zeta in *.
      assert (Hadd0 : wg_adds (add_event WgAdd w) = wg_adds w + 1 ∧
                      wg_dones (add_event WgAdd w) = wg_dones w).
      { unfold wg_adds, wg_dones, add_event; simpl.
        rewrite !count_events_app, !count_events_one. simpl. lia. }
      destruct Hadd0 as [Hadd0 Hdone0].
      exists (S a), (d + (if is_running (Value o) then 0 else 1)).
      rewrite Ha, Hd, Hadds, Hdones, Hadd0, Hdone0. cbn [length].
      split; [lia|]. split; [lia|].
      split; [destruct o; simpl; lia|]. split; [lia|]. split.
      { intros o' Ho'. f_equal. by eapply Hval. }
      split.
      { intros Hr. destruct (Hret Hr) as [Hacc ->].
        destruct o; [|done]. simpl. split; [done|lia]. }
      intros Hr. destruct o; simpl.
      * destruct (Hrun Hr) as [?|?]; [by left|right; lia].
      * right. lia.
    + cbn [fst snd is_running] in Hwg. destruct Hwg as [Hadds Hdones].
      exists 1, 1. cbn [fst snd length]. rewrite Hadds, Hdones.
      unfold wg_adds, wg_dones, add_event; simpl.
      rewrite !count_events_app, !count_events_one. simpl.
      repeat split; try lia || discriminate.
Qed.

(** [StartBroadcaster], branch by branch. *)
Lemma StartBroadcaster_branches localKubeconfig w :
  StartBroadcaster env cycles clusterId localKubeconfig foreignKubeconfig
                   gatewayIP gatewayPrivateIP w
  = let w0 := add_event (LogInfo "starting broadcaster") w in
    let w1 := mkWorld (S (w_connects w)) (w_lists w) (w_publishes w)
                      (w_clock_reads w) (w_trace w0) in
    match env_NewK8sClient env localKubeconfig with
    | Err e =>
        (Value Returned,
         add_event (LogError e "Unable to create client to local cluster") w0)
    | Ok _ =>
        match env_NewCRDClient env (w_connects w) localKubeconfig None with
        | Err e =>
            (Value Returned,
             add_event (LogError e "Unable to create client to local cluster") w1)
        | Ok _ =>
            match env_ListConfigMaps env with
            | Err e =>
                (Value Returned,
                 add_event (LogError e "Unable to list configMaps") w1)
            | Ok items => tasks items Returned w1
            end
        end
    end.
Proof.
  unfold StartBroadcaster. cbn zeta. unfold bind at 1. cbn [log_Info emit].
  destruct (env_NewK8sClient env localKubeconfig) as [[]|e]; [|reflexivity].
  unfold bind at 1. cbn [pkg_NewCRDClient add_event w_connects w_lists w_publishes
                         w_clock_reads w_trace].
  destruct (env_NewCRDClient env (w_connects w) localKubeconfig None) as [c|e];
    [|reflexivity].
  destruct (env_ListConfigMaps env) as [items|e]; reflexivity.
Qed.

End Spawning.

(** X19.  Records whose name does not start with [foreign-kubeconfig]
    are ignored: running the tasks of a list of records is running the
    tasks of its selected records, in the same order. *)
Theorem run_tasks_ignores_unselected
    (env : Env) (cycles : nat)
    (clusterId foreignKubeconfig gatewayIP gatewayPrivateIP : string)
    (items : list ConfigMap) (all_returned : Outcome) (w : World) :
  run_tasks env cycles clusterId foreignKubeconfig gatewayIP gatewayPrivateIP
            items all_returned w
  = run_tasks env cycles clusterId foreignKubeconfig gatewayIP gatewayPrivateIP
              (selected items) all_returned w.
Proof.
  revert all_returned w.
  induction items as [|cm items IH]; intros all_returned w; [done|].
  rewrite selected_cons. cbn [run_tasks].
  destruct (GoStrings.HasPrefix (cm_Name cm) "foreign-kubeconfig") eqn:Hpre.
  - cbn [run_tasks]. rewrite Hpre. unfold bind.
    destruct (emit WgAdd w) as [[[]|msg] w1]; [|done].
    destruct (GenerateAdvertisement _ _ _ _ _ _ _ w1) as [[o|msg] w2]; [|done].
    apply IH.
  - apply IH.
Qed.

(** X20.  The wait group of [StartBroadcaster]: it never counts more
    [wg.Done()] than [wg.Add(1)], it adds at most one per selected
    record, and [StartBroadcaster] returns only when every task it
    started is done; while it is still waiting, some started task is not
    done. *)
Theorem StartBroadcaster_wait_group
    (env : Env) (cycles : nat)
    (clusterId localKubeconfig foreignKubeconfig gatewayIP gatewayPrivateIP : string)
    (w : World) :
  let r := StartBroadcaster env cycles clusterId localKubeconfig foreignKubeconfig
                            gatewayIP gatewayPrivateIP w in
  ∃ a d,
    wg_adds r.2 = wg_adds w + a ∧
    wg_dones r.2 = wg_dones w + d ∧
    d ≤ a ∧
    (∀ items, env_ListConfigMaps env = Ok items → a ≤ length (selected items)) ∧
    (r.1 = Value Returned → d = a) ∧
    (r.1 = Value Running → d < a).
Proof.
  cbn zeta. rewrite StartBroadcaster_branches. cbn zeta.
  set (w0 := add_event (LogInfo "starting broadcaster") w).
  set (w1 := mkWorld _ _ _ _ _).
  assert (Ha0 : wg_adds w0 = wg_adds w ∧ wg_dones w0 = wg_dones w).
  { unfold w0. rewrite wg_adds_add, wg_dones_add. simpl. lia. }
  assert (Ha1 : wg_adds w1 = wg_adds w ∧ wg_dones w1 = wg_dones w) by exact Ha0.
  assert (Hlog : ∀ e msg (w' : World),
             wg_adds w' = wg_adds w ∧ wg_dones w' = wg_dones w →
             ∃ a d,
               wg_adds (Value Returned, add_event (LogError e msg) w').2 = wg_adds w + a ∧
               wg_dones (Value Returned, add_event (LogError e msg) w').2 = wg_dones w + d ∧
               d ≤ a ∧
               (∀ items, env_ListConfigMaps env = Ok items →
                         a ≤ length (selected items)) ∧
               ((Value Returned, add_event (LogError e msg) w').1 = Value Returned →
                d = a) ∧
               ((Value Returned, add_event (LogError e msg) w').1 = Value Running →
                d < a)).
  { intros e msg w' [Ha' Hd']. exists 0, 0. cbn [fst snd].
    rewrite wg_adds_add, wg_dones_add, Ha', Hd'. cbn [is_wg_add is_wg_done].
    repeat split; try lia. discriminate. }
  destruct (env_NewK8sClient env localKubeconfig) as [[]|e]; [|by apply Hlog].
  destruct (env_NewCRDClient env _ _ _) as [c|e]; [|by apply Hlog].
  destruct (env_ListConfigMaps env) as [items|e] eqn:Hitems; [|by apply Hlog].
  destruct (run_tasks_wg env cycles clusterId foreignKubeconfig gatewayIP
              gatewayPrivateIP items Returned w1)
    as (a & d & Ha & Hd & Hle & Hlen & _ & Hret & Hrun).
  cbn zeta in *. destruct Ha1 as [Ha1 Hd1]. exists a, d. rewrite Ha, Hd, Ha1, Hd1.
  split; [done|]. split; [done|]. split; [done|]. split.
  { by intros items' [= <-]. }
  split.
  - intros Hr. by destruct (Hret Hr).
  - intros Hr. by destruct (Hrun Hr).
Qed.

(** X21.  The broadcaster does not start when it cannot create a client
    to the local cluster or cannot list the configuration records: it
    logs the error and returns at once, having started no task, listed
    no node and upserted nothing. *)
Theorem StartBroadcaster_startup_failure
    (env : Env) (cycles : nat)
    (clusterId localKubeconfig foreignKubeconfig gatewayIP gatewayPrivateIP : string)
    (w : World) :
  (∃ e, env_NewK8sClient env localKubeconfig = Err e) ∨
  (∃ e, env_NewCRDClient env (w_connects w) localKubeconfig None = Err e) ∨
  (∃ e, env_ListConfigMaps env = Err e) →
  ∃ w' e msg,
    StartBroadcaster env cycles clusterId localKubeconfig foreignKubeconfig
                     gatewayIP gatewayPrivateIP w
    = (Value Returned, w') ∧
    w_trace w' = w_trace w ++ [LogInfo "starting broadcaster"; LogError e msg] ∧
    w_lists w' = w_lists w ∧
    w_publishes w' = w_publishes w ∧
    w_connects w' ≤ w_connects w + 1.
Proof.
  intros Hfail. rewrite StartBroadcaster_branches. cbn zeta.
  destruct (env_NewK8sClient env localKubeconfig) as [[]|e].
  - destruct (env_NewCRDClient env (w_connects w) localKubeconfig None) as [c|e].
    + destruct (env_ListConfigMaps env) as [items|e].
      * destruct Hfail as [[e ?]|[[e ?]|[e ?]]]; discriminate.
      * eexists _, e, _. split; [reflexivity|].
        cbn [add_event w_connects w_lists w_publishes w_trace].
        rewrite <- app_assoc. repeat split; lia.
    + eexists _, e, _. split; [reflexivity|].
      cbn [add_event w_connects w_lists w_publishes w_trace].
      rewrite <- app_assoc. repeat split; lia.
  - eexists _, e, _. split; [reflexivity|].
    cbn [add_event w_connects w_lists w_publishes w_trace].
    rewrite <- app_assoc. repeat split; lia.
Qed.

(** X21, witness: no client to the local cluster. *)
Lemma StartBroadcaster_startup_failure_witness :
  ∃ w' e msg,
    StartBroadcaster env_no_local_client 5 "cluster-1" no_path no_path
                     "1.2.3.4" "10.0.0.1" initial_world
    = (Value Returned, w') ∧
    w_trace w' = [] ++ [LogInfo "starting broadcaster"; LogError e msg] ∧
    w_lists w' = 0 ∧
    w_publishes w' = 0 ∧
    w_connects w' ≤ 0 + 1.
Proof.
  apply (StartBroadcaster_startup_failure env_no_local_client 5 "cluster-1"
           no_path no_path "1.2.3.4" "10.0.0.1" initial_world).
  left. by exists "no kubeconfig".
Defined.
